(** * Deep Eye: the resilient HTTP client and the report generator

    A shallow embedding of [src/utils/http_client.py] (class [HTTPClient])
    and [src/core/report_generator.py] (class [ReportGenerator]), with the
    properties of the specification stated and settled against it.

    Conventions of the embedding:
    - a Python [str] is a [string]; every character is a code point below
      256, and [str.lower] is the ASCII lowering;
    - a Python [dict] is an association list in insertion order; keys are
      unique in a [dict], and [dict.get] reads the first entry of a key;
    - a call that may raise returns a [result]: [Returned v] or [Raised e];
    - objects that the code mutates (the session of a client, the file
      system, the log) are threaded through the calls explicitly;
    - the third-party session library (requests over urllib3), the template
      engine, the PDF converter and the network are not part of the
      repository: the parts the code relies on are modelled in the modules
      [Requests] and the sections' variables, each with the library
      behaviour it stands for. *)

From Stdlib Require Import ZArith Lia Bool List Sorted Permutation.
From Stdlib Require Import Strings.Ascii.
From Stdlib Require Strings.String Numbers.DecimalString Numbers.DecimalZ Numbers.DecimalPos.
From stdpp Require Import base option list strings gmap.

Set Warnings "-register-all".
Local Open Scope nat_scope.

(** ** Python values, exceptions and calls *)

Module Py.

(** [str.lower] on one character: [A]-[Z] to [a]-[z]. *)
Definition lower_char (c : ascii) : ascii :=
  let n := nat_of_ascii c in
  if (65 <=? n) && (n <=? 90) then ascii_of_nat (n + 32) else c.

Fixpoint lower (s : string) : string :=
  match s with
  | EmptyString => EmptyString
  | String c s' => String (lower_char c) (lower s')
  end.

(** [s.replace(old, new)] for a non-empty [old]: occurrences are replaced
    from the left and do not overlap.  [skip] counts the characters of an
    occurrence already replaced that are still to be dropped. *)
Fixpoint replace_from (old new : string) (skip : nat) (s : string) : string :=
  match s with
  | EmptyString => EmptyString
  | String c s' =>
      match skip with
      | S k => replace_from old new k s'
      | O =>
          if String.prefix old s
          then new +:+ replace_from old new (String.length old - 1) s'
          else String c (replace_from old new 0 s')
      end
  end.

Definition replace (old new s : string) : string := replace_from old new 0 s.

(** The exception classes of [requests.exceptions] that the session can
    raise; all of them derive from [RequestException]. *)
Inductive requests_exc :=
| ConnectionError | ConnectTimeout | ReadTimeout | SSLError | ProxyError
| RetryError | MissingSchema | InvalidSchema | InvalidURL.

(** Exceptions.  [RequestException e] is an instance of a class of the
    [requests.exceptions.RequestException] family; the other constructors
    are the built-in classes, none of which derives from it.
    [ExternalError] is an exception raised inside a third-party
    collaborator of the report generator. *)
Inductive exn :=
| RequestException (e : requests_exc)
| TypeError (msg : string)
| ValueError (msg : string)
| AttributeError (msg : string)
| OSError (path : string)
| ImportError (name : string)
| ExternalError (msg : string).

Inductive log_level := DEBUG | INFO | ERROR.

(** Modelled from the spec: the logger that [utils.logger.get_logger]
    returns, which is not among the sources.  A call of the logger adds a
    record and has no other effect; a record is a level, a text and, where
    the text interpolates a caught exception, that exception. *)
Inductive log_record :=
| Log (lvl : log_level) (text : string) (cause : option exn).

Inductive result (A : Type) :=
| Returned (a : A)
| Raised (e : exn).
Arguments Returned {A} a.
Arguments Raised {A} e.

Definition bind {A B} (r : result A) (k : A → result B) : result B :=
  match r with
  | Returned a => k a
  | Raised e => Raised e
  end.

#[global] Instance result_ret : MRet result := @Returned.
#[global] Instance result_bind : MBind result := λ A B k r, bind r k.

(** [isinstance(e, requests.exceptions.RequestException)] *)
Definition is_request_exception (e : exn) : bool :=
  match e with RequestException _ => true | _ => false end.

(** Python values of the JSON kind, the values a result structure is
    made of. *)
Inductive value :=
| PyNone
| PyBool (b : bool)
| PyInt (n : Z)
| PyStr (s : string)
| PyList (l : list value)
| PyDict (d : list (string * value)).

(** Induction on values, with the hypothesis for the elements of a list
    and for the entries of a [dict]. *)
Section ValueInduction.
Variable P : value → Prop.
Hypothesis none_case : P PyNone.
Hypothesis bool_case : ∀ b, P (PyBool b).
Hypothesis int_case : ∀ n, P (PyInt n).
Hypothesis str_case : ∀ s, P (PyStr s).
Hypothesis list_case : ∀ l, Forall P l → P (PyList l).
Hypothesis dict_case : ∀ d, Forall (λ kv, P (snd kv)) d → P (PyDict d).

Fixpoint value_ind_nested (v : value) : P v :=
  match v with
  | PyNone => none_case
  | PyBool b => bool_case b
  | PyInt n => int_case n
  | PyStr s => str_case s
  | PyList l =>
      list_case l
        ((fix elements (l : list value) : Forall P l :=
            match l with
            | [] => List.Forall_nil P
            | x :: l' => List.Forall_cons P x l' (value_ind_nested x) (elements l')
            end) l)
  | PyDict d =>
      dict_case d
        ((fix entries (d : list (string * value)) : Forall (λ kv, P (snd kv)) d :=
            match d with
            | [] => List.Forall_nil _
            | kv :: d' =>
                List.Forall_cons (λ kv, P (snd kv)) kv d' (value_ind_nested (snd kv)) (entries d')
            end) d)
  end.
End ValueInduction.

(** [d.get(key)] on an association list. *)
Fixpoint dict_lookup {V} (key : string) (d : list (string * V)) : option V :=
  match d with
  | [] => None
  | (k, v) :: d' => if String.eqb k key then Some v else dict_lookup key d'
  end.

(** [d.get(key, default)] *)
Definition dict_get {V} (key : string) (dflt : V) (d : list (string * V)) : V :=
  default dflt (dict_lookup key d).

End Py.
Export Py.


(** ** The session library, as the client uses it

    [requests.Session] over [urllib3]: header and cookie merging, the
    keyword parameters of [Session.request], the mounted retry strategy and
    the translation of urllib3 failures into [requests.exceptions].  Sleeping
    between attempts (the backoff) and the following of redirects are left
    out. *)

Module Requests.

Abbreviation str_dict := (list (string * string)).

(** [CaseInsensitiveDict]: the store is keyed by the lowered name and keeps
    the name as it was last written. *)
Definition ci_set (k v : string) (h : gmap string (string * string))
  : gmap string (string * string) :=
  <[lower k := (k, v)]> h.

Definition ci_update (h : gmap string (string * string)) (l : str_dict)
  : gmap string (string * string) :=
  foldl (λ m kv, ci_set kv.1 kv.2 m) h l.

Definition ci_get (k : string) (h : gmap string (string * string)) : option string :=
  snd <$> h !! lower k.

(** [dict.update] on a plain mapping (the cookie jar, by cookie name). *)
Definition jar_update (j : gmap string string) (l : str_dict) : gmap string string :=
  foldl (λ m kv, <[kv.1 := kv.2]> m) j l.

(** [urllib3.util.retry.Retry]: the fields the client sets, and
    [raise_on_status] and [respect_retry_after_header], which it leaves at
    the library's default. *)
Record Retry := {
  total : nat;
  backoff_factor : nat;
  status_forcelist : list nat;
  allowed_methods : list string;
  raise_on_status : bool;
  respect_retry_after_header : bool
}.

(** [Retry(total=.., backoff_factor=.., status_forcelist=..,
    allowed_methods=..)] *)
Definition Retry_new (n backoff : nat) (codes : list nat) (methods : list string) : Retry :=
  {| total := n; backoff_factor := backoff; status_forcelist := codes;
     allowed_methods := methods;
     raise_on_status := true; respect_retry_after_header := true |}.

(** The adapter of a fresh session: no retries. *)
Definition default_retry : Retry :=
  {| total := 0; backoff_factor := 0; status_forcelist := [];
     allowed_methods := ["HEAD"; "GET"; "PUT"; "DELETE"; "OPTIONS"; "TRACE"];
     raise_on_status := true; respect_retry_after_header := true |}.

Record Response := {
  status_code : nat;
  has_retry_after : bool;
  set_cookies : str_dict;
  body : string
}.

(** Failures below HTTP, by the urllib3 class that reports them:
    [NewConnectionError] is a refused connection or a failed name lookup. *)
Inductive transport_error :=
| ConnectTimeoutError | NewConnectionError | ReadTimeoutError
| TLSError | ProxyFailure | ProtocolError.

Inductive wire_result :=
| Answer (r : Response)
| Failure (e : transport_error).

(** What one attempt puts on the wire. *)
Record Request := {
  req_method : string;
  req_url : string;
  req_headers : gmap string (string * string);
  req_cookies : gmap string string;
  req_params : option str_dict;
  req_data : option str_dict;
  req_json : option str_dict;
  req_timeout : option Z;
  req_verify : bool;
  req_allow_redirects : bool
}.

Record Session := {
  headers : gmap string (string * string);
  cookies : gmap string string;
  proxies : gmap string string;
  verify : bool;
  adapters : list (string * Retry)
}.

(** Keyword arguments of a call, by name.  [kw_other] is a keyword whose
    value the model does not look at. *)
Inductive kwarg :=
| kw_params (v : option str_dict)
| kw_data (v : option str_dict)
| kw_json (v : option str_dict)
| kw_headers (v : option str_dict)
| kw_cookies (v : option str_dict)
| kw_timeout (v : option Z)
| kw_verify (v : bool)
| kw_allow_redirects (v : bool)
| kw_other (name : string).

Definition kw_name (k : kwarg) : string :=
  match k with
  | kw_params _ => "params"
  | kw_data _ => "data"
  | kw_json _ => "json"
  | kw_headers _ => "headers"
  | kw_cookies _ => "cookies"
  | kw_timeout _ => "timeout"
  | kw_verify _ => "verify"
  | kw_allow_redirects _ => "allow_redirects"
  | kw_other name => name
  end.

Definition has_keyword (name : string) (kws : list kwarg) : bool :=
  existsb (λ k, String.eqb (kw_name k) name) kws.

(** The call [f(.., k1=v1, .., **kwargs)]: a name given both ways is a
    [TypeError], raised before [f] is entered. *)
Definition call_keywords (explicit kwargs : list kwarg) : result (list kwarg) :=
  match find (λ k, has_keyword (kw_name k) explicit) kwargs with
  | Some k =>
      Raised (TypeError ("got multiple values for keyword argument " +:+ kw_name k))
  | None => Returned (explicit ++ kwargs)
  end.

(** [kwargs.setdefault(name, v)] *)
Definition setdefault (k : kwarg) (kws : list kwarg) : list kwarg :=
  if has_keyword (kw_name k) kws then kws else kws ++ [k].

(** The arguments of [Session.request] after binding; an absent keyword
    has the default of the signature. *)
Record call_args := {
  a_params : option str_dict;
  a_data : option str_dict;
  a_json : option str_dict;
  a_headers : option str_dict;
  a_cookies : option str_dict;
  a_timeout : option Z;
  a_verify : option bool;
  a_allow_redirects : bool
}.

(** The other keyword parameters of [Session.request]. *)
Definition other_parameters : list string :=
  ["files"; "auth"; "proxies"; "hooks"; "stream"; "cert"].

(** The value given for a keyword, if the keyword is given. *)
Definition given {A} (sel : kwarg → option A) (kws : list kwarg) : option A :=
  head (omap sel kws).

Definition unexpected (k : kwarg) : bool :=
  match k with
  | kw_other name => negb (bool_decide (name ∈ other_parameters))
  | _ => false
  end.

(** The value of each keyword. *)
Definition params_of (k : kwarg) := match k with kw_params v => Some v | _ => None end.
Definition data_of (k : kwarg) := match k with kw_data v => Some v | _ => None end.
Definition json_of (k : kwarg) := match k with kw_json v => Some v | _ => None end.
Definition headers_of (k : kwarg) := match k with kw_headers v => Some v | _ => None end.
Definition cookies_of (k : kwarg) := match k with kw_cookies v => Some v | _ => None end.
Definition timeout_of (k : kwarg) := match k with kw_timeout v => Some v | _ => None end.
Definition verify_of (k : kwarg) := match k with kw_verify v => Some v | _ => None end.
Definition allow_redirects_of (k : kwarg) :=
  match k with kw_allow_redirects v => Some v | _ => None end.

(** Binding the keywords of a call to the parameters of
    [Session.request]; a name that is no parameter is a [TypeError]. *)
Definition bind_keywords (kws : list kwarg) : result call_args :=
  match find unexpected kws with
  | Some k =>
      Raised (TypeError ("got an unexpected keyword argument " +:+ kw_name k))
  | None =>
      Returned
        {| a_params := default None (given params_of kws);
           a_data := default None (given data_of kws);
           a_json := default None (given json_of kws);
           a_headers := default None (given headers_of kws);
           a_cookies := default None (given cookies_of kws);
           a_timeout := default None (given timeout_of kws);
           a_verify := given verify_of kws;
           a_allow_redirects := default true (given allow_redirects_of kws) |}
  end.

(** [Retry._is_method_retryable] *)
Definition is_method_retryable (r : Retry) (method : string) : bool :=
  bool_decide (method ∈ allowed_methods r).

(** [Retry.RETRY_AFTER_STATUS_CODES] *)
Definition retry_after_status_codes : list nat := [413; 429; 503].

(** [Retry.is_retry], with [left] the current value of [total]. *)
Definition is_retry (r : Retry) (left : nat) (method : string) (resp : Response) : bool :=
  is_method_retryable r method &&
  (bool_decide (status_code resp ∈ status_forcelist r)
   || (negb (left =? 0) && respect_retry_after_header r && has_retry_after resp
       && bool_decide (status_code resp ∈ retry_after_status_codes))).

(** [Retry._is_read_error] *)
Definition is_read_error (e : transport_error) : bool :=
  match e with ReadTimeoutError | ProtocolError => true | _ => false end.

(** The reason carried by urllib3's [MaxRetryError]. *)
Inductive reason :=
| ResponseError
| Cause (e : transport_error).

Inductive urlopen_result :=
| Got (r : Response)
| MaxRetryError (why : reason)
| Reraised (e : transport_error).

Section Network.

(** The network: what the [i]-th attempt of a call meets. *)
Variable wire : nat → Request → wire_result.

(** [HTTPConnectionPool.urlopen] under a [Retry]: [left] is the current
    [total], [i] the number of attempts made so far.  An attempt that
    fails, or that is answered with a status to retry, is repeated with
    [total] decremented ([Retry.increment]); when [total] would drop
    below zero the retries are exhausted, which raises [MaxRetryError]
    unless the last answer is to be returned
    ([raise_on_status = False]).  The attempts are returned with the
    result. *)
Fixpoint urlopen (r : Retry) (left i : nat) (req : Request)
  : urlopen_result * list Request :=
  match wire i req with
  | Failure e =>
      if is_read_error e && negb (is_method_retryable r (req_method req))
      then (Reraised e, [req])
      else match left with
           | O => (MaxRetryError (Cause e), [req])
           | S left' =>
               let '(res, sent) := urlopen r left' (S i) req in (res, req :: sent)
           end
  | Answer resp =>
      if is_retry r left (req_method req) resp
      then match left with
           | O => if raise_on_status r
                  then (MaxRetryError ResponseError, [req])
                  else (Got resp, [req])
           | S left' =>
               let '(res, sent) := urlopen r left' (S i) req in (res, req :: sent)
           end
      else (Got resp, [req])
  end.

(** [HTTPAdapter.send]: the exceptions of urllib3 become exceptions of
    [requests.exceptions]. *)
Definition translate (res : urlopen_result) : result Response :=
  match res with
  | Got resp => Returned resp
  | MaxRetryError ResponseError => Raised (RequestException RetryError)
  | MaxRetryError (Cause ConnectTimeoutError) => Raised (RequestException ConnectTimeout)
  | MaxRetryError (Cause ProxyFailure) => Raised (RequestException ProxyError)
  | MaxRetryError (Cause TLSError) => Raised (RequestException SSLError)
  | MaxRetryError (Cause _) => Raised (RequestException ConnectionError)
  | Reraised ReadTimeoutError => Raised (RequestException ReadTimeout)
  | Reraised TLSError => Raised (RequestException SSLError)
  | Reraised ProxyFailure => Raised (RequestException ProxyError)
  | Reraised _ => Raised (RequestException ConnectionError)
  end.

Definition adapter_send (r : Retry) (req : Request) : result Response * list Request :=
  let '(res, sent) := urlopen r (total r) 0 req in (translate res, sent).

(** [PreparedRequest.prepare_url]: the exception a URL is refused with,
    if it is refused ([MissingSchema], [InvalidURL]). *)
Variable url_refused : string → option requests_exc.

(** [Session.mount] *)
Definition mount (prefix : string) (r : Retry) (s : Session) : Session :=
  {| headers := headers s; cookies := cookies s; proxies := proxies s;
     verify := verify s;
     adapters :=
       (prefix, r) :: filter (λ kv, negb (String.eqb kv.1 prefix)) (adapters s) |}.

(** [Session.get_adapter] *)
Definition get_adapter (s : Session) (url : string) : result Retry :=
  match find (λ kv, String.prefix (lower kv.1) (lower url)) (adapters s) with
  | Some kv => Returned kv.2
  | None => Raised (RequestException InvalidSchema)
  end.

(** [Session.prepare_request]: the settings of the call are merged over
    those of the session ([merge_setting], [merge_cookies]). *)
Definition prepare (s : Session) (method url : string) (a : call_args) : Request :=
  {| req_method := method;
     req_url := url;
     req_headers := ci_update (headers s) (default [] (a_headers a));
     req_cookies := jar_update (cookies s) (default [] (a_cookies a));
     req_params := a_params a;
     req_data := a_data a;
     req_json := a_json a;
     req_timeout := a_timeout a;
     req_verify := default (verify s) (a_verify a);
     req_allow_redirects := a_allow_redirects a |}.

(** The session after a response: the cookies the response sets are
    kept in the jar ([extract_cookies_to_jar]). *)
Definition store_cookies (s : Session) (resp : Response) : Session :=
  {| headers := headers s;
     cookies := jar_update (cookies s) (set_cookies resp);
     proxies := proxies s; verify := verify s; adapters := adapters s |}.

Record outcome := {
  ret : result Response;
  session_after : Session;
  sent : list Request
}.

(** [Session.request(method, url, **kws)] *)
Definition request (s : Session) (method url : string) (kws : list kwarg) : outcome :=
  match bind_keywords kws with
  | Raised e => {| ret := Raised e; session_after := s; sent := [] |}
  | Returned a =>
      match url_refused url with
      | Some e => {| ret := Raised (RequestException e); session_after := s; sent := [] |}
      | None =>
          match get_adapter s url with
          | Raised e => {| ret := Raised e; session_after := s; sent := [] |}
          | Returned r =>
              let '(res, attempts) := adapter_send r (prepare s method url a) in
              match res with
              | Returned resp =>
                  {| ret := Returned resp; session_after := store_cookies s resp;
                     sent := attempts |}
              | Raised e => {| ret := Raised e; session_after := s; sent := attempts |}
              end
          end
      end
  end.

(** The call expression [send(url, k1=v1, .., **kwargs)] on a method of
    the session. *)
Definition call (send : Session → string → list kwarg → outcome)
    (s : Session) (url : string) (explicit kwargs : list kwarg) : outcome :=
  match call_keywords explicit kwargs with
  | Raised e => {| ret := Raised e; session_after := s; sent := [] |}
  | Returned kws => send s url kws
  end.

(** [Session.get], [Session.options], [Session.head] and [Session.post] *)
Definition get (s : Session) (url : string) (kws : list kwarg) : outcome :=
  request s "GET" url (setdefault (kw_allow_redirects true) kws).

Definition options (s : Session) (url : string) (kws : list kwarg) : outcome :=
  request s "OPTIONS" url (setdefault (kw_allow_redirects true) kws).

Definition head (s : Session) (url : string) (kws : list kwarg) : outcome :=
  request s "HEAD" url (setdefault (kw_allow_redirects false) kws).

Definition post (s : Session) (url : string) (kws : list kwarg) : outcome :=
  request s "POST" url kws.

End Network.

Definition set_headers (h : gmap string (string * string)) (s : Session) : Session :=
  {| headers := h; cookies := cookies s; proxies := proxies s;
     verify := verify s; adapters := adapters s |}.

Definition set_cookie_jar (j : gmap string string) (s : Session) : Session :=
  {| headers := headers s; cookies := j; proxies := proxies s;
     verify := verify s; adapters := adapters s |}.

Definition set_proxies (p : gmap string string) (s : Session) : Session :=
  {| headers := headers s; cookies := cookies s; proxies := p;
     verify := verify s; adapters := adapters s |}.

(** [requests.Session()]: the library's default headers (the user agent
    and the accepted encodings depend on the installation), no cookies, no
    proxies, verification on, and the default adapter for both schemes. *)
Definition Session_new (library_user_agent library_encodings : string) : Session :=
  {| headers :=
       ci_update ∅ [("User-Agent", library_user_agent);
                    ("Accept-Encoding", library_encodings);
                    ("Accept", "*/*");
                    ("Connection", "keep-alive")];
     cookies := ∅;
     proxies := ∅;
     verify := true;
     adapters := [("https://", default_retry); ("http://", default_retry)] |}.

End Requests.

(** ** [src/utils/http_client.py]: class [HTTPClient] *)

Module HTTPClient.
Import Requests.

(** The configuration object: [config['scanner']] with its optional
    keys. *)
Record ScannerConfig := {
  cfg_timeout : option Z;
  cfg_verify_ssl : option bool;
  cfg_max_retries : option nat;
  cfg_user_agent : option string
}.

Record Config := { scanner : option ScannerConfig }.

Definition empty_scanner_config : ScannerConfig :=
  {| cfg_timeout := None; cfg_verify_ssl := None;
     cfg_max_retries := None; cfg_user_agent := None |}.

Record t := {
  config : Config;
  timeout : Z;
  verify_ssl : bool;
  max_retries : nat;
  user_agent : string;
  session : Session
}.

Definition with_session (c : t) (s : Session) : t :=
  {| config := config c; timeout := timeout c; verify_ssl := verify_ssl c;
     max_retries := max_retries c; user_agent := user_agent c; session := s |}.

(** Truth value of an optional mapping and of an optional string. *)
Definition truthy {A} (o : option (list A)) : bool :=
  match o with Some (_ :: _) => true | _ => false end.

Definition truthy_str (o : option string) : bool :=
  match o with Some (String _ _) => true | _ => false end.

(** The headers [__init__] sets on the session. *)
Definition default_headers (user_agent : string) : str_dict :=
  [("User-Agent", user_agent);
   ("Accept", "*/*");
   ("Accept-Language", "en-US,en;q=0.9");
   ("Accept-Encoding", "gzip, deflate");
   ("Connection", "keep-alive")].

Definition retryable_status : list nat := [429; 500; 502; 503; 504].
Definition retryable_methods : list string := ["HEAD"; "GET"; "OPTIONS"; "POST"].

Section Client.

Variable wire : nat → Request → wire_result.
Variable url_refused : string → option requests_exc.
Variables library_user_agent library_encodings : string.

(** [HTTPClient.__init__] *)
Definition init (proxy : option string) (custom_headers cookies : option str_dict)
    (config : option Config) : t :=
  let config := default {| scanner := None |} config in
  let scanner_config := default empty_scanner_config (scanner config) in
  let timeout := default 10%Z (cfg_timeout scanner_config) in
  let verify_ssl := default true (cfg_verify_ssl scanner_config) in
  let max_retries := default 3 (cfg_max_retries scanner_config) in
  let user_agent := default "Deep-Eye/1.0" (cfg_user_agent scanner_config) in
  let session := Session_new library_user_agent library_encodings in
  let retry_strategy := Retry_new max_retries 1 retryable_status retryable_methods in
  let session := mount "http://" retry_strategy session in
  let session := mount "https://" retry_strategy session in
  let session :=
    set_headers (ci_update (headers session) (default_headers user_agent)) session in
  let session :=
    if truthy custom_headers
    then set_headers (ci_update (headers session) (default [] custom_headers)) session
    else session in
  let session :=
    if truthy cookies
    then set_cookie_jar (jar_update (Requests.cookies session) (default [] cookies)) session
    else session in
  let session :=
    if truthy_str proxy
    then set_proxies {[ "http" := default "" proxy; "https" := default "" proxy ]} session
    else session in
  {| config := config; timeout := timeout; verify_ssl := verify_ssl;
     max_retries := max_retries; user_agent := user_agent; session := session |}.

(** What a call operation leaves behind: its result, the client, the
    attempts put on the wire and the records logged. *)
Record call := {
  result : Py.result (option Response);
  client_after : t;
  issued : list Request;
  logged : list log_record
}.

(** The body shared by the four operations:
    [try: response = ..; return response
     except requests.exceptions.RequestException as e:
         logger.debug(..); return None] *)
Definition try_request (verb url : string) (c : t) (o : outcome) : call :=
  match ret o with
  | Returned response =>
      {| result := Returned (Some response);
         client_after := with_session c (session_after o);
         issued := sent o; logged := [] |}
  | Raised (RequestException e) =>
      {| result := Returned None;
         client_after := with_session c (session_after o);
         issued := sent o;
         logged := [Log DEBUG (verb +:+ " request failed for " +:+ url)
                      (Some (RequestException e))] |}
  | Raised e =>
      {| result := Raised e;
         client_after := with_session c (session_after o);
         issued := sent o; logged := [] |}
  end.

(** [HTTPClient.get] *)
Definition get (c : t) (url : string) (params headers : option str_dict)
    (allow_redirects : bool) (kwargs : list kwarg) : call :=
  try_request "GET" url c
    (Requests.call (Requests.get wire url_refused) (session c) url
       [kw_params params; kw_headers headers; kw_timeout (Some (timeout c));
        kw_verify (verify_ssl c); kw_allow_redirects allow_redirects]
       kwargs).

(** [HTTPClient.post] *)
Definition post (c : t) (url : string) (data json headers : option str_dict)
    (kwargs : list kwarg) : call :=
  try_request "POST" url c
    (Requests.call (Requests.post wire url_refused) (session c) url
       [kw_data data; kw_json json; kw_headers headers;
        kw_timeout (Some (timeout c)); kw_verify (verify_ssl c)]
       kwargs).

(** [HTTPClient.head] *)
Definition head (c : t) (url : string) (kwargs : list kwarg) : call :=
  try_request "HEAD" url c
    (Requests.call (Requests.head wire url_refused) (session c) url
       [kw_timeout (Some (timeout c)); kw_verify (verify_ssl c)]
       kwargs).

(** [HTTPClient.options] *)
Definition options (c : t) (url : string) (kwargs : list kwarg) : call :=
  try_request "OPTIONS" url c
    (Requests.call (Requests.options wire url_refused) (session c) url
       [kw_timeout (Some (timeout c)); kw_verify (verify_ssl c)]
       kwargs).

(** The four call operations with their own parameters. *)
Inductive operation :=
| GET (params headers : option str_dict) (allow_redirects : bool)
| POST (data json headers : option str_dict)
| HEAD
| OPTIONS.

Definition perform (op : operation) (c : t) (url : string) (kwargs : list kwarg) : call :=
  match op with
  | GET params headers allow_redirects => get c url params headers allow_redirects kwargs
  | POST data json headers => post c url data json headers kwargs
  | HEAD => head c url kwargs
  | OPTIONS => options c url kwargs
  end.

End Client.

End HTTPClient.

(** ** The JSON text of a value

    [json.dump(obj, f, indent=2)] and [json.load], on the values of [value]:
    the encoder with its defaults ([ensure_ascii], separators [","] and
    [": "] when an indent is given), and a reader of the JSON grammar
    without fractions and exponents. *)

Module Json.

Definition quote : ascii := "034"%char.
Definition backslash : ascii := "092"%char.
Definition newline : ascii := "010"%char.

Definition hex_digit (n : nat) : ascii :=
  match n with
  | 0 => "0" | 1 => "1" | 2 => "2" | 3 => "3" | 4 => "4" | 5 => "5"
  | 6 => "6" | 7 => "7" | 8 => "8" | 9 => "9" | 10 => "a" | 11 => "b"
  | 12 => "c" | 13 => "d" | 14 => "e" | _ => "f"
  end%char.

Definition hex_value (c : ascii) : option nat :=
  let n := nat_of_ascii c in
  if (48 <=? n) && (n <=? 57) then Some (n - 48)
  else if (97 <=? n) && (n <=? 102) then Some (n - 87)
  else if (65 <=? n) && (n <=? 70) then Some (n - 55)
  else None.

(** One character of a string literal ([ESCAPE_DCT] and the [\uXXXX]
    form of [py_encode_basestring_ascii]). *)
Definition escape_char (c : ascii) : string :=
  let n := nat_of_ascii c in
  if n =? 34 then String backslash (String quote "")
  else if n =? 92 then String backslash (String backslash "")
  else if n =? 10 then String backslash "n"
  else if n =? 13 then String backslash "r"
  else if n =? 9 then String backslash "t"
  else if n =? 8 then String backslash "b"
  else if n =? 12 then String backslash "f"
  else if (32 <=? n) && (n <=? 126) then String c ""
  else String backslash
         (String "u" (String "0" (String "0"
            (String (hex_digit (n / 16)) (String (hex_digit (n mod 16)) ""))))).

Fixpoint escape (s : string) : string :=
  match s with
  | EmptyString => EmptyString
  | String c s' => escape_char c +:+ escape s'
  end.

Definition encode_str (s : string) : string :=
  String quote (escape s +:+ String quote "").

(** [str(n)] of an [int] *)
Definition encode_int (n : Z) : string :=
  DecimalString.NilEmpty.string_of_int (Z.to_int n).

Fixpoint spaces (n : nat) : string :=
  match n with
  | O => EmptyString
  | S k => String " " (spaces k)
  end.

(** The line break before an item at nesting [level]. *)
Definition newline_indent (indent level : nat) : string :=
  String newline (spaces (indent * level)).

Fixpoint join (sep : string) (l : list string) : string :=
  match l with
  | [] => EmptyString
  | [x] => x
  | x :: l' => x +:+ sep +:+ join sep l'
  end.

Fixpoint encode (indent level : nat) (v : value) {struct v} : string :=
  match v with
  | PyNone => "null"
  | PyBool true => "true"
  | PyBool false => "false"
  | PyInt n => encode_int n
  | PyStr s => encode_str s
  | PyList [] => "[]"
  | PyList l =>
      "[" +:+ newline_indent indent (S level)
      +:+ join ("," +:+ newline_indent indent (S level))
            (List.map (encode indent (S level)) l)
      +:+ newline_indent indent level +:+ "]"
  | PyDict [] => "{}"
  | PyDict d =>
      "{" +:+ newline_indent indent (S level)
      +:+ join ("," +:+ newline_indent indent (S level))
            (List.map (λ kv, encode_str (fst kv) +:+ ": " +:+ encode indent (S level) (snd kv)) d)
      +:+ newline_indent indent level +:+ "}"
  end.

(** [json.dumps(obj, indent=indent)] *)
Definition dumps (indent : nat) (v : value) : string := encode indent 0 v.

(** *** Reading *)

Definition is_ws (c : ascii) : bool :=
  let n := nat_of_ascii c in
  (n =? 32) || (n =? 10) || (n =? 13) || (n =? 9).

Fixpoint skip_ws (s : string) : string :=
  match s with
  | EmptyString => EmptyString
  | String c s' => if is_ws c then skip_ws s' else s
  end.

Definition is_number_char (c : ascii) : bool :=
  let n := nat_of_ascii c in
  (n =? 45) || ((48 <=? n) && (n <=? 57)).

(** The longest prefix of sign and digit characters, and what follows. *)
Fixpoint take_number (s : string) : string * string :=
  match s with
  | EmptyString => (EmptyString, EmptyString)
  | String c s' =>
      if is_number_char c
      then let '(tok, rest) := take_number s' in (String c tok, rest)
      else (EmptyString, s)
  end.

Definition unescape (c : ascii) : option ascii :=
  let n := nat_of_ascii c in
  if n =? 34 then Some quote
  else if n =? 92 then Some backslash
  else if n =? 47 then Some "/"%char
  else if n =? 110 then Some newline
  else if n =? 114 then Some "013"%char
  else if n =? 116 then Some "009"%char
  else if n =? 98 then Some "008"%char
  else if n =? 102 then Some "012"%char
  else None.

Definition hex4 (a b c d : ascii) : option ascii :=
  x ← hex_value a; y ← hex_value b; z ← hex_value c; w ← hex_value d;
  let n := ((x * 16 + y) * 16 + z) * 16 + w in
  if n <? 256 then Some (ascii_of_nat n) else None.

(** The characters of a string literal after its opening quote, up to
    the closing quote, and what follows. *)
Fixpoint read_str (s : string) : option (string * string) :=
  match s with
  | EmptyString => None
  | String c s1 =>
      if Ascii.eqb c quote then Some (EmptyString, s1)
      else if Ascii.eqb c backslash then
        match s1 with
        | String e s2 =>
            if Ascii.eqb e "u" then
              match s2 with
              | String h1 (String h2 (String h3 (String h4 s3))) =>
                  ch ← hex4 h1 h2 h3 h4;
                  p ← read_str s3;
                  Some (String ch (fst p), snd p)
              | _ => None
              end
            else
              ch ← unescape e;
              p ← read_str s2;
              Some (String ch (fst p), snd p)
        | EmptyString => None
        end
      else p ← read_str s1; Some (String c (fst p), snd p)
  end.

(** [expect w s]: [s] without its prefix [w]. *)
Fixpoint expect (w s : string) : option string :=
  match w with
  | EmptyString => Some s
  | String c w' =>
      match s with
      | String c' s' => if Ascii.eqb c c' then expect w' s' else None
      | EmptyString => None
      end
  end.

(** [peek c s]: what follows [c] when [c] is the next character of [s]
    after white space. *)
Definition peek (c : ascii) (s : string) : option string :=
  match skip_ws s with
  | String c' r => if Ascii.eqb c' c then Some r else None
  | EmptyString => None
  end.

Fixpoint parse (fuel : nat) (s : string) : option (value * string) :=
  match fuel with
  | O => None
  | S n =>
      match skip_ws s with
      | EmptyString => None
      | String c s' =>
          if is_number_char c then
            let '(tok, rest) := take_number (String c s') in
            i ← DecimalString.NilEmpty.int_of_string tok;
            Some (PyInt (Z.of_int i), rest)
          else if Ascii.eqb c "n" then r ← expect "ull" s'; Some (PyNone, r)
          else if Ascii.eqb c "t" then r ← expect "rue" s'; Some (PyBool true, r)
          else if Ascii.eqb c "f" then r ← expect "alse" s'; Some (PyBool false, r)
          else if Ascii.eqb c quote then p ← read_str s'; Some (PyStr (fst p), snd p)
          else if Ascii.eqb c "[" then
            match peek "]" s' with
            | Some r => Some (PyList [], r)
            | None => p ← parse_elements n s'; Some (PyList (fst p), snd p)
            end
          else if Ascii.eqb c "{" then
            match peek "}" s' with
            | Some r => Some (PyDict [], r)
            | None => p ← parse_members n s'; Some (PyDict (fst p), snd p)
            end
          else None
      end
  end
with parse_elements (fuel : nat) (s : string) : option (list value * string) :=
  match fuel with
  | O => None
  | S n =>
      p ← parse n s;
      match peek "," (snd p) with
      | Some r => q ← parse_elements n r; Some (fst p :: fst q, snd q)
      | None =>
          match peek "]" (snd p) with
          | Some r => Some ([fst p], r)
          | None => None
          end
      end
  end
with parse_members (fuel : nat) (s : string) : option (list (string * value) * string) :=
  match fuel with
  | O => None
  | S n =>
      s1 ← peek quote s;
      k ← read_str s1;
      s2 ← peek ":" (snd k);
      p ← parse n s2;
      match peek "," (snd p) with
      | Some r => q ← parse_members n r; Some ((fst k, fst p) :: fst q, snd q)
      | None =>
          match peek "}" (snd p) with
          | Some r => Some ([(fst k, fst p)], r)
          | None => None
          end
      end
  end.

(** The fuel [parse] needs for the text of a value. *)
Fixpoint size (v : value) : nat :=
  match v with
  | PyList l => S (list_sum (List.map (λ x, S (size x)) l))
  | PyDict d => S (list_sum (List.map (λ kv, S (size (snd kv))) d))
  | _ => 1
  end.

(** [json.loads(s)]: one value, then nothing but white space.  The
    members of an object are returned as they are read; a [dict] has each
    key once, and so has its text. *)
Definition loads (s : string) : option value :=
  p ← parse (S (String.length s)) s;
  match skip_ws (snd p) with
  | EmptyString => Some (fst p)
  | _ => None
  end.

End Json.

(** ** [src/core/report_generator.py]: class [ReportGenerator] *)

Module ReportGenerator.

Abbreviation dict := (list (string * value)).

(** The file system (path to content) and the records logged so far. *)
Record world := {
  files : gmap string string;
  log : list log_record
}.

Definition write_file (path content : string) (w : world) : world :=
  {| files := <[path := content]> (files w); log := log w |}.

Definition remove_file (path : string) (w : world) : world :=
  {| files := delete path (files w); log := log w |}.

Definition emit (r : log_record) (w : world) : world :=
  {| files := files w; log := log w ++ [r] |}.

(** [Path(path).unlink()] *)
Definition unlink (path : string) (w : world) : result unit * world :=
  match files w !! path with
  | Some _ => (Returned tt, remove_file path w)
  | None => (Raised (OSError path), w)
  end.

(** [len(v)] *)
Definition len (v : value) : result nat :=
  match v with
  | PyList l => Returned (length l)
  | PyDict d => Returned (length d)
  | PyStr s => Returned (String.length s)
  | _ => Raised (TypeError "object has no len()")
  end.

(** The elements [iter(v)] yields. *)
Definition iterate (v : value) : result (list value) :=
  match v with
  | PyList l => Returned l
  | PyDict d => Returned (List.map (λ kv, PyStr (fst kv)) d)
  | PyStr s => Returned (List.map (λ c, PyStr (String c "")) (String.list_ascii_of_string s))
  | _ => Raised (TypeError "object is not iterable")
  end.

(** [v.get] of a value that is a [dict]; other values have no [get]. *)
Definition as_dict (v : value) : result dict :=
  match v with
  | PyDict d => Returned d
  | _ => Raised (AttributeError "object has no attribute get")
  end.

(** [sorted(l, key=key)]: the keys are computed first, one per element
    and from the left; the sort is stable.  [insert_by] puts an element
    before the first one whose key is not smaller, and the elements are
    inserted from the right. *)
Fixpoint insert_by {A} (k : nat) (x : A) (l : list (nat * A)) : list (nat * A) :=
  match l with
  | [] => [(k, x)]
  | (k', y) :: l' =>
      if k <=? k' then (k, x) :: l else (k', y) :: insert_by k x l'
  end.

Fixpoint sort_keyed {A} (l : list (nat * A)) : list (nat * A) :=
  match l with
  | [] => []
  | (k, x) :: l' => insert_by k x (sort_keyed l')
  end.

Definition sorted {A} (key : A → result nat) (l : list A) : result (list A) :=
  keys ← mapM key l;
  Returned (List.map snd (sort_keyed (zip keys l))).

Definition severity_order : list (string * nat) :=
  [("critical", 0); ("high", 1); ("medium", 2); ("low", 3); ("info", 4)].

(** The sort key of [_sort_vulnerabilities]:
    [severity_order.get(x.get('severity', 'info').lower(), 5)] *)
Definition severity_key (x : value) : result nat :=
  d ← as_dict x;
  match dict_get "severity" (PyStr "info") d with
  | PyStr s => Returned (dict_get (lower s) 5 severity_order)
  | _ => Raised (AttributeError "object has no attribute lower")
  end.

(** [ReportGenerator._sort_vulnerabilities] *)
Definition _sort_vulnerabilities (vulnerabilities : value) : result (list value) :=
  l ← iterate vulnerabilities;
  sorted severity_key l.

(** The data handed to the template. *)
Record report_data := {
  title : string;
  generated_date : string;
  target : value;
  scan_duration : value;
  summary : string;
  vulnerabilities : list value;
  severity_counts : value;
  urls_scanned : value;
  reconnaissance : value
}.

Definition unsupported (format : string) : exn :=
  ValueError ("Unsupported format: " +:+ format).

Section Environment.

(** Whether [open(path, 'w')] succeeds. *)
Variable writable : string → bool.

(** [datetime.now().strftime('%Y-%m-%d %H:%M:%S')] *)
Variable now : string.

(** [str(v)], as an f-string prints a value. *)
Variable str : value → string.

(** The template of [_get_html_template] as the engine renders it: the
    document up to the list of vulnerabilities, the block of one
    vulnerability (the body of the [for]), and the end of the
    document. *)
Variable template_head : report_data → string.
Variable template_vulnerability : value → string.
Variable template_foot : string.

(** [weasyprint]: [None] when the module cannot be imported, else the
    conversion of an HTML document, which may fail. *)
Variable weasyprint : option (string → result string).

(** [open(path, 'w')]: the file is created or emptied. *)
Definition open_w (path : string) (w : world) : result world :=
  if writable path then Returned (write_file path "" w)
  else Raised (OSError path).

Definition line : string := String Json.newline "        ".

(** [ReportGenerator._generate_summary] *)
Definition _generate_summary (results : dict) : result string :=
  total_vulns ← len (dict_get "vulnerabilities" (PyList []) results);
  severity_counts ← as_dict (dict_get "severity_summary" (PyDict []) results);
  Returned
    ("This security assessment identified "
     +:+ str (PyInt (Z.of_nat total_vulns))
     +:+ " potential security issues on the target system."
     +:+ line
     +:+ line +:+ "Critical vulnerabilities require immediate attention as they pose significant risk to the organization."
     +:+ line +:+ "High and medium severity issues should be addressed in order of priority."
     +:+ line
     +:+ line +:+ "Risk Distribution:"
     +:+ line +:+ "- Critical: " +:+ str (dict_get "critical" (PyInt 0) severity_counts) +:+ " issues"
     +:+ line +:+ "- High: " +:+ str (dict_get "high" (PyInt 0) severity_counts) +:+ " issues"
     +:+ line +:+ "- Medium: " +:+ str (dict_get "medium" (PyInt 0) severity_counts) +:+ " issues"
     +:+ line +:+ "- Low: " +:+ str (dict_get "low" (PyInt 0) severity_counts) +:+ " issues").

(** The list of vulnerabilities in the document:
    [{% if vulnerabilities %}{% for vuln in vulnerabilities %}..
     {% endfor %}{% else %}..{% endif %}] *)
Definition render_vulnerabilities (l : list value) : string :=
  match l with
  | [] =>
      String Json.newline "                <p>No vulnerabilities detected.</p>"
      +:+ String Json.newline "            "
  | _ =>
      String Json.newline "                "
      +:+ String.concat "" (List.map template_vulnerability l)
      +:+ String Json.newline "            "
  end.

(** [Template(template_content).render] on the entries of [report_data] *)
Definition render (data : report_data) : string :=
  template_head data +:+ render_vulnerabilities (vulnerabilities data) +:+ template_foot.

(** The [report_data] of [_generate_html], its entries evaluated in the
    order of the source. *)
Definition prepare_data (results : dict) : result report_data :=
  summary ← _generate_summary results;
  vulnerabilities ←
    _sort_vulnerabilities (dict_get "vulnerabilities" (PyList []) results);
  Returned
    {| title := "Deep Eye Security Assessment Report";
       generated_date := now;
       target := dict_get "target" PyNone results;
       scan_duration := dict_get "duration" PyNone results;
       summary := summary;
       vulnerabilities := vulnerabilities;
       severity_counts := dict_get "severity_summary" (PyDict []) results;
       urls_scanned := dict_get "urls_crawled" (PyInt 0) results;
       reconnaissance := dict_get "reconnaissance" (PyDict []) results |}.

(** [ReportGenerator._generate_json] *)
Definition _generate_json (results : dict) (output_path : string) (w : world)
  : result unit * world :=
  match open_w output_path w with
  | Raised e => (Raised e, w)
  | Returned w1 =>
      let w2 := write_file output_path (Json.dumps 2 (PyDict results)) w1 in
      (Returned tt,
       emit (Log INFO ("JSON report generated: " +:+ output_path) None) w2)
  end.

(** [ReportGenerator._generate_html] *)
Definition _generate_html (results : dict) (output_path : string) (w : world)
  : result unit * world :=
  match prepare_data results with
  | Raised e => (Raised e, w)
  | Returned report_data =>
      let html_content := render report_data in
      match open_w output_path w with
      | Raised e => (Raised e, w)
      | Returned w1 =>
          let w2 := write_file output_path html_content w1 in
          (Returned tt,
           emit (Log INFO ("HTML report generated: " +:+ output_path) None) w2)
      end
  end.

(** The [try] block of [_generate_pdf]: import, conversion of the file at
    [html_path] into [output_path], the record of success, and the
    removal of the HTML file. *)
Definition convert_pdf (html_path output_path : string) (w : world)
  : result unit * world :=
  match weasyprint with
  | None => (Raised (ImportError "weasyprint"), w)
  | Some write_pdf =>
      match files w !! html_path with
      | None => (Raised (OSError html_path), w)
      | Some html =>
          match write_pdf html with
          | Raised e => (Raised e, w)
          | Returned pdf =>
              match open_w output_path w with
              | Raised e => (Raised e, w)
              | Returned w1 =>
                  let w2 := write_file output_path pdf w1 in
                  let w3 :=
                    emit (Log INFO ("PDF report generated: " +:+ output_path) None) w2 in
                  unlink html_path w3
              end
          end
      end
  end.

(** [ReportGenerator._generate_pdf] *)
Definition _generate_pdf (results : dict) (output_path : string) (w : world)
  : result unit * world :=
  let html_path := Py.replace ".pdf" ".html" output_path in
  match _generate_html results html_path w with
  | (Raised e, w1) => (Raised e, w1)
  | (Returned _, w1) =>
      match convert_pdf html_path output_path w1 with
      | (Returned _, w2) => (Returned tt, w2)
      | (Raised e, w2) =>
          (Returned tt,
           emit (Log INFO ("HTML report available at: " +:+ html_path) None)
             (emit (Log ERROR "Error generating PDF" (Some e)) w2))
      end
  end.

(** [ReportGenerator.generate] *)
Definition generate (results : dict) (output_path format : string) (w : world)
  : result unit * world :=
  if String.eqb format "json" then _generate_json results output_path w
  else if String.eqb format "html" then _generate_html results output_path w
  else if String.eqb format "pdf" then _generate_pdf results output_path w
  else (Raised (unsupported format), w).

End Environment.

End ReportGenerator.

(** ** Vocabulary of the statements about the client *)

Module ClientSpec.
Import Requests.

(** The keywords an operation passes to the session itself. *)
Definition own_keywords (c : HTTPClient.t) (op : HTTPClient.operation) : list kwarg :=
  match op with
  | HTTPClient.GET params headers allow_redirects =>
      [kw_params params; kw_headers headers; kw_timeout (Some (HTTPClient.timeout c));
       kw_verify (HTTPClient.verify_ssl c); kw_allow_redirects allow_redirects]
  | HTTPClient.POST data json headers =>
      [kw_data data; kw_json json; kw_headers headers;
       kw_timeout (Some (HTTPClient.timeout c)); kw_verify (HTTPClient.verify_ssl c)]
  | HTTPClient.HEAD | HTTPClient.OPTIONS =>
      [kw_timeout (Some (HTTPClient.timeout c)); kw_verify (HTTPClient.verify_ssl c)]
  end.

Definition verb (op : HTTPClient.operation) : string :=
  match op with
  | HTTPClient.GET _ _ _ => "GET"
  | HTTPClient.POST _ _ _ => "POST"
  | HTTPClient.HEAD => "HEAD"
  | HTTPClient.OPTIONS => "OPTIONS"
  end.

(** The keywords that reach [Session.request]. *)
Definition request_keywords (op : HTTPClient.operation) (kws : list kwarg) : list kwarg :=
  match op with
  | HTTPClient.GET _ _ _ | HTTPClient.OPTIONS => setdefault (kw_allow_redirects true) kws
  | HTTPClient.HEAD => setdefault (kw_allow_redirects false) kws
  | HTTPClient.POST _ _ _ => kws
  end.

(** The call an operation makes on its session. *)
Definition session_call (wire : nat → Request → wire_result)
    (url_refused : string → option requests_exc)
    (op : HTTPClient.operation) (c : HTTPClient.t) (url : string)
    (kwargs : list kwarg) : outcome :=
  match call_keywords (own_keywords c op) kwargs with
  | Raised e => {| ret := Raised e; session_after := HTTPClient.session c; sent := [] |}
  | Returned kws =>
      request wire url_refused (HTTPClient.session c) (verb op) url (request_keywords op kws)
  end.

(** The extra keywords an operation accepts: none that it passes itself,
    and none that is no parameter of the session's request. *)
Definition accepted (c : HTTPClient.t) (op : HTTPClient.operation) (kwargs : list kwarg) : bool :=
  forallb (λ k, negb (has_keyword (kw_name k) (own_keywords c op)) && negb (unexpected k)) kwargs.

(** The headers given with a call. *)
Definition per_call_headers (op : HTTPClient.operation) (kwargs : list kwarg)
  : option str_dict :=
  match op with
  | HTTPClient.GET _ headers _ | HTTPClient.POST _ _ headers => headers
  | HTTPClient.HEAD | HTTPClient.OPTIONS =>
      default None (given headers_of kwargs)
  end.

(** A URL of a scheme the client's adapters are mounted for. *)
Definition http_url (url : string) : bool :=
  String.prefix "https://" (lower url) || String.prefix "http://" (lower url).

(** The retry strategy [__init__] mounts for a client. *)
Definition retry_strategy (c : HTTPClient.t) : Retry :=
  Retry_new (HTTPClient.max_retries c) 1
    HTTPClient.retryable_status HTTPClient.retryable_methods.

End ClientSpec.

(** ** Concrete clients, networks and calls *)

Module Samples.
Import Requests.

Definition ok_response : Response :=
  {| status_code := 200; has_retry_after := false;
     set_cookies := [("sid", "1")]; body := "ok" |}.

Definition busy_response : Response :=
  {| status_code := 503; has_retry_after := false; set_cookies := []; body := "busy" |}.

(** Networks: every attempt is answered with 200, with 503, or times
    out. *)
Definition always_ok : nat → Request → wire_result := λ _ _, Answer ok_response.
Definition always_busy : nat → Request → wire_result := λ _ _, Answer busy_response.
Definition always_timeout : nat → Request → wire_result := λ _ _, Failure ReadTimeoutError.

Definition no_refusal : string → option requests_exc := λ _, None.

(** A client with two retries, a timeout of five seconds, verification
    off and its own user agent header. *)
Definition client2 : HTTPClient.t :=
  HTTPClient.init "python-requests/2.31.0" "gzip, deflate"
    None (Some [("user-agent", "Scanner/2")]) None
    (Some {| HTTPClient.scanner :=
               Some {| HTTPClient.cfg_timeout := Some 5%Z;
                       HTTPClient.cfg_verify_ssl := Some false;
                       HTTPClient.cfg_max_retries := Some 2;
                       HTTPClient.cfg_user_agent := None |} |}).

Definition target_url : string := "http://target.example/login".

End Samples.

(** ** Vocabulary of the statements about the report generator *)

Module ReportSpec.
Import ReportGenerator.

(** A vulnerability record: a [dict] whose severity, when there is one,
    is a string. *)
Definition vulnerability_record (x : value) : bool :=
  match x with
  | PyDict d =>
      match dict_lookup "severity" d with
      | None | Some (PyStr _) => true
      | Some _ => false
      end
  | _ => false
  end.

(** A result structure the HTML renderer can read: the vulnerabilities,
    when given, are a list of vulnerability records, and the severity
    summary, when given, is a [dict]. *)
Definition renderable (results : dict) : bool :=
  match dict_get "vulnerabilities" (PyList []) results with
  | PyList l => forallb vulnerability_record l
  | _ => false
  end
  && match dict_get "severity_summary" (PyDict []) results with
     | PyDict _ => true
     | _ => false
     end.

(** The severity rank of a record: its sort key. *)
Definition rank (x : value) : nat :=
  match severity_key x with
  | Returned k => k
  | Raised _ => 5
  end.

Definition severity_names : list string :=
  ["critical"; "high"; "medium"; "low"; "info"].

Definition is_value_error (e : exn) : bool :=
  match e with ValueError _ => true | _ => false end.

Definition supported (format : string) : bool :=
  String.eqb format "json" || String.eqb format "html" || String.eqb format "pdf".

Definition empty_world : world := {| files := ∅; log := [] |}.

End ReportSpec.

(** ** Concrete environments and result structures *)

Module ReportSamples.
Import ReportGenerator ReportSpec.

Definition everywhere : string → bool := λ _, true.
Definition nowhere : string → bool := λ _, false.

Definition sample_now : string := "2024-05-01 12:00:00".

Definition sample_str (v : value) : string :=
  match v with
  | PyInt n => Json.encode_int n
  | PyStr s => s
  | _ => ""
  end.

Definition sample_head (data : report_data) : string :=
  "<html><h1>" +:+ title data +:+ "</h1><p>" +:+ summary data +:+ "</p>".

Definition sample_block (x : value) : string :=
  match x with
  | PyDict d => "<div>" +:+ sample_str (dict_get "type" (PyStr "") d) +:+ "</div>"
  | _ => ""
  end.

Definition sample_foot : string := "</html>".

(** A converter that succeeds, and one that fails. *)
Definition sample_converter : option (string → result string) :=
  Some (λ html, Returned ("%PDF-1.7 " +:+ html)).

Definition broken_converter : option (string → result string) :=
  Some (λ _, Raised (ExternalError "conversion failed")).

Definition sample_results : dict :=
  [("target", PyStr "http://target.example");
   ("duration", PyInt 12);
   ("vulnerabilities",
    PyList
      [PyDict [("type", PyStr "xss"); ("severity", PyStr "low")];
       PyDict [("type", PyStr "sqli"); ("severity", PyStr "CRITICAL")];
       PyDict [("type", PyStr "banner")];
       PyDict [("type", PyStr "odd"); ("severity", PyStr "unrated")];
       PyDict [("type", PyStr "csrf"); ("severity", PyStr "Low")]]);
   ("severity_summary", PyDict [("critical", PyInt 1); ("low", PyInt 2)]);
   ("urls_crawled", PyInt 7)].

(** [generate] in the sample environment, with the given file access and
    converter. *)
Definition sample_generate (writable : string → bool)
    (converter : option (string → result string)) :=
  generate writable sample_now sample_str sample_head sample_block sample_foot converter.

End ReportSamples.

(** ** Vocabulary of the further statements *)

Module ExtraSpec.
Import Requests.

(** An attempt the retry strategy [r] repeats: a failure below HTTP, or an
    answer with a status of its list. *)
Definition retried (r : Retry) (res : wire_result) : bool :=
  match res with
  | Failure _ => true
  | Answer resp => bool_decide (status_code resp ∈ status_forcelist r)
  end.

(** An answer no retry strategy with the list [codes] repeats. *)
Definition final (codes : list nat) (resp : Response) : bool :=
  negb (bool_decide (status_code resp ∈ codes))
  && negb (has_retry_after resp
           && bool_decide (status_code resp ∈ retry_after_status_codes)).

(** The request an operation prepares on the session of [c]. *)
Definition request_of (op : HTTPClient.operation) (c : HTTPClient.t) (url : string)
    (kwargs : list kwarg) : option Request :=
  match bind_keywords
          (ClientSpec.request_keywords op (ClientSpec.own_keywords c op ++ kwargs)) with
  | Returned a => Some (prepare (HTTPClient.session c) (ClientSpec.verb op) url a)
  | Raised _ => None
  end.

(** Values [len] accepts. *)
Definition sized (v : value) : bool :=
  match v with
  | PyList _ | PyDict _ | PyStr _ => true
  | _ => false
  end.

Definition is_dict (v : value) : bool :=
  match v with PyDict _ => true | _ => false end.

Definition is_returned {A} (r : result A) : bool :=
  match r with Returned _ => true | Raised _ => false end.

Definition is_type_error (e : exn) : bool :=
  match e with TypeError _ => true | _ => false end.

Definition is_attribute_error (e : exn) : bool :=
  match e with AttributeError _ => true | _ => false end.

(** Whether [old] occurs in [s]. *)
Fixpoint contains (old s : string) : bool :=
  String.prefix old s
  || match s with
     | EmptyString => false
     | String _ s' => contains old s'
     end.

(** The result structures whose report data can be prepared: the
    vulnerabilities are a list of vulnerability records or an empty
    [dict] or string, and the severity summary is a [dict]. *)
Definition readable (results : ReportGenerator.dict) : bool :=
  match dict_get "vulnerabilities" (PyList []) results with
  | PyList l => forallb ReportSpec.vulnerability_record l
  | PyDict [] => true
  | PyStr "" => true
  | _ => false
  end
  && is_dict (dict_get "severity_summary" (PyDict []) results).

(** The records of [l] with the severity rank [k], in their order. *)
Definition rank_class (k : nat) (l : list value) : list value :=
  filter (λ x, ReportSpec.rank x = k) l.

(** The four severities the summary counts. *)
Definition counted_severities : list string :=
  ["critical"; "high"; "medium"; "low"].

(** The text of the document when there is nothing to list. *)
Definition no_vulnerabilities_text : string :=
  String Json.newline "                <p>No vulnerabilities detected.</p>"
  +:+ String Json.newline "            ".

(** Sample networks and answers. *)
Definition not_found_response : Response :=
  {| status_code := 404; has_retry_after := false; set_cookies := []; body := "" |}.

Definition busy_twice_then_ok : nat → Request → wire_result :=
  λ j _, if j <? 2 then Answer Samples.busy_response else Answer Samples.ok_response.

Definition refuse_all : string → option requests_exc := λ _, Some InvalidURL.

(** A client constructed with a session cookie and a proxy. *)
Definition client_with_cookie : HTTPClient.t :=
  HTTPClient.init "python-requests/2.31.0" "gzip, deflate"
    (Some "http://127.0.0.1:8080") None (Some [("session", "abc")]) None.

End ExtraSpec.
(** * Properties of the HTTP client *)

Module ClientFacts.
Import Requests ClientSpec.

Section Facts.

Variable wire : nat → Request → wire_result.
Variable url_refused : string → option requests_exc.

Lemma perform_session_call op c url kwargs :
  HTTPClient.perform wire url_refused op c url kwargs
  = HTTPClient.try_request (verb op) url c (session_call wire url_refused op c url kwargs).
Proof.
  destruct op; cbn [HTTPClient.perform verb];
    unfold HTTPClient.get, HTTPClient.post, HTTPClient.head, HTTPClient.options,
      session_call, call, get, post, head, options;
    cbn [own_keywords request_keywords];
    destruct (call_keywords _ kwargs); reflexivity.
Qed.

Lemma try_request_result verb url c o :
  HTTPClient.result (HTTPClient.try_request verb url c o)
  = match ret o with
    | Returned resp => Returned (Some resp)
    | Raised (RequestException _) => Returned None
    | Raised e => Raised e
    end.
Proof. unfold HTTPClient.try_request. destruct (ret o) as [?|[]]; reflexivity. Qed.

Lemma try_request_issued verb url c o :
  HTTPClient.issued (HTTPClient.try_request verb url c o) = sent o.
Proof. unfold HTTPClient.try_request. destruct (ret o) as [?|[]]; reflexivity. Qed.

Lemma try_request_client verb url c o :
  HTTPClient.client_after (HTTPClient.try_request verb url c o)
  = HTTPClient.with_session c (session_after o).
Proof. unfold HTTPClient.try_request. destruct (ret o) as [?|[]]; reflexivity. Qed.

(** What the adapter raises is of the [RequestException] family. *)
Lemma translate_cases res :
  (∃ resp, res = Got resp ∧ translate res = Returned resp)
  ∨ (∃ e, translate res = Raised (RequestException e)).
Proof.
  destruct res as [resp|[|[]]|[]]; cbn; eauto.
Qed.

Lemma urlopen_sent r left i req :
  Forall (λ q, q = req) (snd (urlopen wire r left i req)).
Proof.
  revert i. induction left as [|left IH]; intros i; cbn.
  - destruct (wire i req); [destruct (is_retry _ _ _ _); [destruct (raise_on_status r)|]
                          |destruct (_ && _)]; cbn; auto.
  - destruct (wire i req).
    + destruct (is_retry _ _ _ _); cbn; auto.
      specialize (IH (S i)). destruct (urlopen wire r left (S i) req); cbn in *; auto.
    + destruct (_ && _); cbn; auto.
      specialize (IH (S i)). destruct (urlopen wire r left (S i) req); cbn in *; auto.
Qed.

(** Every outcome of [Session.request] is a response, an exception of
    the [RequestException] family, or the [TypeError] of a keyword. *)
Lemma request_ret_cases s method url kws :
  let o := request wire url_refused s method url kws in
  (∃ resp, ret o = Returned resp)
  ∨ (∃ e, ret o = Raised (RequestException e))
  ∨ (∃ msg, ret o = Raised (TypeError msg) ∧ sent o = [] ∧ session_after o = s).
Proof.
  unfold request. destruct (bind_keywords kws) as [a|e] eqn:Hb.
  - destruct (url_refused url); cbn; [eauto|].
    unfold get_adapter. destruct (find _ _); cbn; [|eauto].
    unfold adapter_send. destruct (urlopen _ _ _ _ _) as [res att].
    destruct (translate_cases res) as [(resp & -> & ->)|(e & ->)]; cbn; eauto.
  - unfold bind_keywords in Hb. destruct (find unexpected kws); [|discriminate].
    injection Hb as <-. cbn. right; right. eauto.
Qed.

Lemma session_call_ret_cases op c url kwargs :
  let o := session_call wire url_refused op c url kwargs in
  (∃ resp, ret o = Returned resp)
  ∨ (∃ e, ret o = Raised (RequestException e))
  ∨ (∃ msg, ret o = Raised (TypeError msg) ∧ sent o = []
            ∧ session_after o = HTTPClient.session c).
Proof.
  unfold session_call. destruct (call_keywords _ kwargs) as [kws|e] eqn:Hc.
  - apply request_ret_cases.
  - unfold call_keywords in Hc. destruct (find _ kwargs); [|discriminate].
    injection Hc as <-. cbn. right; right. eauto.
Qed.

(** When every attempt fails below HTTP the pool has no answer to
    return. *)
Lemma urlopen_no_answer r left i req :
  (∀ j q, ∃ e, wire j q = Failure e) →
  ∀ resp, fst (urlopen wire r left i req) ≠ Got resp.
Proof.
  intros Hfail resp. revert i. induction left as [|left IH]; intros i; cbn.
  - destruct (Hfail i req) as [e ->]. destruct (_ && _); cbn; discriminate.
  - destruct (Hfail i req) as [e ->]. destruct (_ && _); cbn; [discriminate|].
    specialize (IH (S i)). destruct (urlopen wire r left (S i) req); cbn in *; exact IH.
Qed.

Lemma request_no_answer s method url kws :
  (∀ j q, ∃ e, wire j q = Failure e) →
  ∀ resp, ret (request wire url_refused s method url kws) ≠ Returned resp.
Proof.
  intros Hfail resp. unfold request.
  destruct (bind_keywords kws); [|discriminate].
  destruct (url_refused url); [discriminate|].
  destruct (get_adapter s url) as [r|]; [|discriminate].
  unfold adapter_send.
  pose proof (urlopen_no_answer r (total r) 0 (prepare s method url a) Hfail) as Hno.
  destruct (urlopen _ _ _ _ _) as [res att]. cbn in Hno.
  destruct (translate_cases res) as [(resp' & -> & _)|(e & ->)]; cbn.
  - exfalso. exact (Hno resp' eq_refl).
  - discriminate.
Qed.


Lemma find_forallb_none {A} (P : A → bool) (l : list A) :
  forallb (λ x, negb (P x)) l = true → find P l = None.
Proof.
  induction l as [|x l IH]; cbn; [reflexivity|].
  intros [Hx Hl]%andb_prop. destruct (P x); [discriminate|]. auto.
Qed.

Lemma accepted_call_keywords c op kwargs :
  accepted c op kwargs = true →
  call_keywords (own_keywords c op) kwargs = Returned (own_keywords c op ++ kwargs).
Proof.
  intros Hacc. unfold call_keywords. rewrite find_forallb_none; [reflexivity|].
  unfold accepted in Hacc. rewrite forallb_forall in *.
  intros k Hk. specialize (Hacc k Hk). apply andb_prop in Hacc as [H _]. exact H.
Qed.

Lemma accepted_bind_keywords c op kwargs :
  accepted c op kwargs = true →
  ∃ a, bind_keywords (request_keywords op (own_keywords c op ++ kwargs)) = Returned a.
Proof.
  intros Hacc. unfold bind_keywords. rewrite find_forallb_none; [eauto|].
  assert (forallb (λ k, negb (unexpected k)) kwargs = true) as Hk.
  { unfold accepted in Hacc. rewrite forallb_forall in *.
    intros k Hk. specialize (Hacc k Hk). apply andb_prop in Hacc as [_ H]. exact H. }
  assert (forallb (λ k, negb (unexpected k)) (own_keywords c op ++ kwargs) = true) as Hall.
  { rewrite forallb_app, Hk. destruct op; reflexivity. }
  destruct op; cbn [request_keywords]; unfold setdefault;
    try destruct (has_keyword _ _); try exact Hall;
    rewrite forallb_app, Hall; reflexivity.
Qed.

(** A retried status on every attempt uses up the retries, and the
    pool raises as [raise_on_status] says. *)
Lemma urlopen_status_exhausted r req :
  raise_on_status r = true →
  is_method_retryable r (req_method req) = true →
  (∀ j q, ∃ resp, wire j q = Answer resp ∧ status_code resp ∈ status_forcelist r) →
  ∀ left i,
    urlopen wire r left i req = (MaxRetryError ResponseError, replicate (S left) req).
Proof.
  intros Hraise Hmethod Hstatus.
  assert (∀ left i resp, wire i req = Answer resp →
            is_retry r left (req_method req) resp = true) as Hretry.
  { intros left i resp Hw. destruct (Hstatus i req) as (resp' & Hw' & Hin).
    rewrite Hw in Hw'. injection Hw' as <-.
    unfold is_retry. rewrite Hmethod, bool_decide_true by done. reflexivity. }
  induction left as [|left IH]; intros i; cbn [urlopen];
    destruct (Hstatus i req) as (resp & Hw & _); rewrite Hw, (Hretry _ i resp Hw).
  - rewrite Hraise. reflexivity.
  - rewrite IH. reflexivity.
Qed.

(** Failures below HTTP on every attempt use up the retries too. *)
Lemma urlopen_failures_exhausted r req :
  is_method_retryable r (req_method req) = true →
  (∀ j q, ∃ e, wire j q = Failure e) →
  ∀ left i, ∃ e,
    urlopen wire r left i req = (MaxRetryError (Cause e), replicate (S left) req).
Proof.
  intros Hmethod Hfail.
  induction left as [|left IH]; intros i; cbn [urlopen];
    destruct (Hfail i req) as [e ->]; rewrite Hmethod, andb_false_r.
  - eauto.
  - destruct (IH (S i)) as [e' ->]. eauto.
Qed.

(** The session a constructed client holds. *)
Lemma init_adapters ua enc proxy custom cookies config :
  let c := HTTPClient.init ua enc proxy custom cookies config in
  adapters (HTTPClient.session c)
  = [("https://", retry_strategy c); ("http://", retry_strategy c)].
Proof.
  unfold HTTPClient.init.
  destruct (HTTPClient.truthy custom), (HTTPClient.truthy cookies),
    (HTTPClient.truthy_str proxy); reflexivity.
Qed.

Lemma init_get_adapter ua enc proxy custom cookies config url :
  let c := HTTPClient.init ua enc proxy custom cookies config in
  http_url url = true →
  get_adapter (HTTPClient.session c) url = Returned (retry_strategy c).
Proof.
  intros c Hurl. unfold get_adapter. subst c. rewrite init_adapters.
  unfold http_url in Hurl. cbn [find fst snd].
  change (lower "https://") with "https://". change (lower "http://") with "http://".
  destruct (String.prefix "https://" (lower url)); [reflexivity|].
  cbn in Hurl. rewrite Hurl. reflexivity.
Qed.

Lemma verb_retryable op : verb op ∈ HTTPClient.retryable_methods.
Proof.
  destruct op; cbn; unfold HTTPClient.retryable_methods;
    rewrite !elem_of_cons; intuition congruence.
Qed.


(** Reading a header after an update: the update wins, by name without
    regard to case. *)
Lemma ci_get_set k k0 v0 h :
  ci_get k (ci_set k0 v0 h)
  = if decide (lower k0 = lower k) then Some v0 else ci_get k h.
Proof.
  unfold ci_get, ci_set. rewrite lookup_insert. destruct (decide _); reflexivity.
Qed.

Lemma ci_get_update k l : ∀ h,
  ci_get k (ci_update h l)
  = match ci_get k (ci_update ∅ l) with
    | Some v => Some v
    | None => ci_get k h
    end.
Proof.
  induction l as [|[k0 v0] l IH]; intros h.
  - reflexivity.
  - cbn [ci_update foldl fst snd].
    change (foldl _ ?h0 l) with (ci_update h0 l).
    rewrite (IH (ci_set k0 v0 h)), (IH (ci_set k0 v0 ∅)).
    destruct (ci_get k (ci_update ∅ l)); [reflexivity|].
    rewrite !ci_get_set. destruct (decide _); reflexivity.
Qed.

Lemma init_headers ua enc proxy custom cookies config :
  let c := HTTPClient.init ua enc proxy (Some custom) cookies config in
  headers (HTTPClient.session c)
  = ci_update
      (ci_update (headers (Session_new ua enc))
         (HTTPClient.default_headers (HTTPClient.user_agent c)))
      custom.
Proof.
  unfold HTTPClient.init.
  destruct custom as [|kv custom], (HTTPClient.truthy cookies),
    (HTTPClient.truthy_str proxy); reflexivity.
Qed.

Lemma bound_headers op c kwargs a :
  call_keywords (own_keywords c op) kwargs = Returned (own_keywords c op ++ kwargs) →
  bind_keywords (request_keywords op (own_keywords c op ++ kwargs)) = Returned a →
  a_headers a = per_call_headers op kwargs.
Proof.
  intros _. unfold bind_keywords. destruct (find unexpected _); [discriminate|].
  intros [= <-]. cbn [a_headers].
  destruct op; cbn [request_keywords own_keywords per_call_headers]; unfold setdefault;
    try destruct (has_keyword _ _); unfold given; rewrite ?omap_app; cbn;
    rewrite ?app_nil_r; reflexivity.
Qed.


(** The session after a call: as before, or with the cookies of the
    response kept. *)
Lemma session_call_after op c url kwargs :
  let o := session_call wire url_refused op c url kwargs in
  session_after o = HTTPClient.session c
  ∨ ∃ resp, ret o = Returned resp
            ∧ session_after o = store_cookies (HTTPClient.session c) resp.
Proof.
  unfold session_call. destruct (call_keywords _ kwargs); [|left; reflexivity].
  unfold request. destruct (bind_keywords _); [|left; reflexivity].
  destruct (url_refused url); [left; reflexivity|].
  destruct (get_adapter _ url); [|left; reflexivity].
  destruct (adapter_send _ _ _) as [[resp|e] att]; cbn; eauto.
Qed.

Lemma bound_timeout_verify op c kwargs a :
  bind_keywords (request_keywords op (own_keywords c op ++ kwargs)) = Returned a →
  a_timeout a = Some (HTTPClient.timeout c)
  ∧ a_verify a = Some (HTTPClient.verify_ssl c).
Proof.
  unfold bind_keywords. destruct (find unexpected _); [discriminate|].
  intros [= <-]. cbn [a_timeout a_verify].
  destruct op; cbn [request_keywords own_keywords]; unfold setdefault;
    try destruct (has_keyword _ _); unfold given; rewrite ?omap_app; cbn;
    auto.
Qed.

Lemma session_call_sent op c url kwargs :
  Forall (λ req, req_timeout req = Some (HTTPClient.timeout c)
                 ∧ req_verify req = HTTPClient.verify_ssl c)
    (sent (session_call wire url_refused op c url kwargs)).
Proof.
  unfold session_call.
  destruct (call_keywords _ kwargs) as [kws|e] eqn:Hkw; [|constructor].
  assert (kws = own_keywords c op ++ kwargs) as ->.
  { unfold call_keywords in Hkw. destruct (find _ kwargs); congruence. }
  unfold request.
  destruct (bind_keywords _) as [a|] eqn:Ha; [|constructor].
  destruct (url_refused url); [constructor|].
  destruct (get_adapter _ url) as [r|]; [|constructor].
  unfold adapter_send.
  pose proof (urlopen_sent r (total r) 0
                (prepare (HTTPClient.session c) (verb op) url a)) as Hsent.
  destruct (urlopen _ _ _ _ _) as [res att]. cbn [snd] in Hsent.
  destruct (bound_timeout_verify _ _ _ _ Ha) as [Ht Hv].
  assert (Forall (λ req, req_timeout req = Some (HTTPClient.timeout c)
                         ∧ req_verify req = HTTPClient.verify_ssl c) att) as Hall.
  { eapply Forall_impl; [exact Hsent|]. intros req ->. cbn [req_timeout req_verify prepare].
    rewrite Ht, Hv. auto. }
  destruct (translate res); exact Hall.
Qed.

Lemma has_keyword_existsb name kws :
  has_keyword name kws = true → ∃ k, In k kws ∧ kw_name k = name.
Proof.
  unfold has_keyword. rewrite existsb_exists. intros (k & Hin & Heq).
  exists k. split; [exact Hin|]. apply String.eqb_eq, Heq.
Qed.

Lemma clash_raises explicit kwargs k :
  In k kwargs → has_keyword (kw_name k) explicit = true →
  ∃ msg, call_keywords explicit kwargs = Raised (TypeError msg).
Proof.
  intros Hin Hclash. unfold call_keywords.
  destruct (find _ kwargs) eqn:Hfind; [eauto|].
  exfalso. pose proof (find_none _ _ Hfind k Hin) as Hk. cbn in Hk. congruence.
Qed.


(** With [max_retries = n], failures below HTTP on every attempt end in
    the sentinel after [n + 1] attempts. *)
Lemma transport_failures_end_in_sentinel ua enc proxy custom cookies config op url kwargs :
  let c := HTTPClient.init ua enc proxy custom cookies config in
  let r := HTTPClient.perform wire url_refused op c url kwargs in
  (∀ j q, ∃ e, wire j q = Failure e) →
  url_refused url = None →
  http_url url = true →
  accepted c op kwargs = true →
  HTTPClient.result r = Returned None
  ∧ length (HTTPClient.issued r) = S (HTTPClient.max_retries c).
Proof.
  intros c r Hwire Hurl Hhttp Hacc. subst r.
  rewrite perform_session_call. unfold session_call.
  rewrite (accepted_call_keywords _ _ _ Hacc).
  destruct (accepted_bind_keywords _ _ _ Hacc) as [a Ha].
  unfold request. rewrite Ha, Hurl. subst c.
  rewrite (init_get_adapter _ _ _ _ _ _ _ Hhttp).
  unfold adapter_send.
  edestruct urlopen_failures_exhausted as [e ->]; [|exact Hwire|].
  - cbn. apply bool_decide_eq_true. apply verb_retryable.
  - cbn [translate]. rewrite try_request_result, try_request_issued.
    destruct e; cbn; rewrite length_replicate; auto.
Qed.

End Facts.

Import Samples.








End ClientFacts.

(** * Reading back the JSON text of a value *)

Module JsonFacts.
Import Json.

Lemma app_cons x (a b : string) : String x a +:+ b = String x (a +:+ b).
Proof. reflexivity. Qed.

Lemma app_nil_l (a : string) : "" +:+ a = a.
Proof. reflexivity. Qed.

Lemma app_assoc (a b c : string) : (a +:+ b) +:+ c = a +:+ (b +:+ c).
Proof.
  induction a as [|x a IH]; [reflexivity|]. rewrite !app_cons, IH. reflexivity.
Qed.

Lemma app_nil_r (a : string) : a +:+ "" = a.
Proof.
  induction a as [|x a IH]; [reflexivity|]. rewrite app_cons, IH. reflexivity.
Qed.

Lemma length_app (a b : string) :
  String.length (a +:+ b) = String.length a + String.length b.
Proof.
  induction a as [|x a IH]; [reflexivity|]. rewrite app_cons. cbn. rewrite IH. reflexivity.
Qed.

(** ** White space *)

Lemma skip_ws_spaces n s : skip_ws (spaces n +:+ s) = skip_ws s.
Proof. induction n as [|n IH]; [reflexivity|]. cbn [spaces]. rewrite app_cons. exact IH. Qed.

Lemma skip_ws_newline_indent indent level s :
  skip_ws (newline_indent indent level +:+ s) = skip_ws s.
Proof. unfold newline_indent. rewrite app_cons. apply skip_ws_spaces. Qed.

Lemma skip_ws_idem s : skip_ws (skip_ws s) = skip_ws s.
Proof.
  induction s as [|c s IH]; cbn; [reflexivity|].
  destruct (is_ws c) eqn:Hc; [exact IH|]. cbn. rewrite Hc. reflexivity.
Qed.

Lemma parse_skip_ws n s : parse n (skip_ws s) = parse n s.
Proof. destruct n; cbn; [reflexivity|]. rewrite skip_ws_idem. reflexivity. Qed.

Lemma parse_newline_indent n indent level s :
  parse n (newline_indent indent level +:+ s) = parse n s.
Proof.
  rewrite <- parse_skip_ws, skip_ws_newline_indent. apply parse_skip_ws.
Qed.

(** ** String literals *)

Lemma read_str_escape_char c t :
  read_str (escape_char c +:+ t)
  = p ← read_str t; Some (String c (fst p), snd p).
Proof.
  destruct c as [[] [] [] [] [] [] [] []]; reflexivity.
Qed.

Lemma read_str_escape s rest :
  read_str (escape s +:+ String quote rest) = Some (s, rest).
Proof.
  induction s as [|c s IH]; cbn [escape].
  - reflexivity.
  - rewrite app_assoc, read_str_escape_char, IH. reflexivity.
Qed.

Lemma encode_str_app s rest :
  encode_str s +:+ rest = String quote (escape s +:+ String quote rest).
Proof. unfold encode_str. rewrite app_cons, app_assoc. reflexivity. Qed.

(** ** Numbers *)

(** What may follow a value: not a character of a number. *)
Local Abbreviation ends_value rest :=
  (match rest with
   | EmptyString => True
   | String c _ => is_number_char c = false
   end).

Lemma take_number_app s rest :
  take_number s = (s, "") → ends_value rest → take_number (s +:+ rest) = (s, rest).
Proof.
  intros Hs Hrest. induction s as [|c s IH].
  - rewrite app_nil_l. destruct rest as [|c r]; [reflexivity|]. cbn. rewrite Hrest. reflexivity.
  - rewrite app_cons. cbn [take_number] in *.
    destruct (is_number_char c); [|discriminate].
    destruct (take_number s) as [tok r] eqn:Ht. injection Hs as -> ->.
    rewrite (IH eq_refl). reflexivity.
Qed.

Lemma take_number_uint d :
  take_number (DecimalString.NilEmpty.string_of_uint d)
  = (DecimalString.NilEmpty.string_of_uint d, "").
Proof. induction d; cbn; [reflexivity|rewrite IHd; reflexivity..]. Qed.

Lemma take_number_int n : take_number (encode_int n) = (encode_int n, "").
Proof.
  unfold encode_int. destruct (Z.to_int n) as [d|d]; cbn.
  - apply take_number_uint.
  - rewrite take_number_uint. reflexivity.
Qed.

Lemma encode_int_first n :
  ∃ c s, encode_int n = String c s ∧ is_number_char c = true.
Proof.
  pose proof (take_number_int n) as Ht.
  destruct (encode_int n) as [|c s] eqn:He.
  - exfalso. unfold encode_int in He. destruct n as [|p|p]; cbn in He; try discriminate.
    pose proof (DecimalPos.Unsigned.to_uint_nonnil p) as Hnil.
    destruct (Pos.to_uint p); [congruence|discriminate..].
  - exists c, s. split; [reflexivity|]. cbn in Ht.
    destruct (is_number_char c); [reflexivity|discriminate].
Qed.

Lemma number_char_not_ws c : is_number_char c = true → is_ws c = false.
Proof. destruct c as [[] [] [] [] [] [] [] []]; vm_compute; congruence. Qed.

Lemma parse_int n z rest :
  ends_value rest → parse (S n) (encode_int z +:+ rest) = Some (PyInt z, rest).
Proof.
  intros Hrest. destruct (encode_int_first z) as (c & s & He & Hc).
  pose proof (take_number_app _ _ (take_number_int z) Hrest) as Ht.
  pose proof (DecimalString.NilEmpty.isi (Z.to_int z)) as Hi.
  fold (encode_int z) in Hi. rewrite He in *. rewrite app_cons in *.
  cbn [parse skip_ws]. rewrite (number_char_not_ws c Hc), Hc, Ht.
  rewrite Hi. cbn. rewrite DecimalZ.of_to. reflexivity.
Qed.

Lemma number_char_not_closing c :
  is_number_char c = true → Ascii.eqb c "]" = false ∧ Ascii.eqb c "}" = false.
Proof. destruct c as [[] [] [] [] [] [] [] []]; vm_compute; auto; discriminate. Qed.

(** ** Looking ahead *)

Lemma peek_newline_indent c indent level s :
  peek c (newline_indent indent level +:+ s) = peek c s.
Proof. unfold peek. rewrite skip_ws_newline_indent. reflexivity. Qed.

Lemma peek_cons c c' s :
  is_ws c' = false → peek c (String c' s) = if Ascii.eqb c' c then Some s else None.
Proof. intros Hc. unfold peek. cbn [skip_ws]. rewrite Hc. reflexivity. Qed.

Lemma parse_elements_newline_indent n indent level s :
  parse_elements n (newline_indent indent level +:+ s) = parse_elements n s.
Proof. destruct n; [reflexivity|]. cbn [parse_elements]. rewrite parse_newline_indent. reflexivity. Qed.

Lemma parse_members_newline_indent n indent level s :
  parse_members n (newline_indent indent level +:+ s) = parse_members n s.
Proof. destruct n; [reflexivity|]. cbn [parse_members]. rewrite peek_newline_indent. reflexivity. Qed.

Lemma parse_space n s : parse n (String " " s) = parse n s.
Proof. rewrite <- parse_skip_ws. cbn [skip_ws]. apply parse_skip_ws. Qed.

Lemma parse_open_bracket n s :
  parse (S n) (String "[" s)
  = match peek "]" s with
    | Some r => Some (PyList [], r)
    | None => p ← parse_elements n s; Some (PyList (fst p), snd p)
    end.
Proof. reflexivity. Qed.

Lemma parse_open_brace n s :
  parse (S n) (String "{" s)
  = match peek "}" s with
    | Some r => Some (PyDict [], r)
    | None => p ← parse_members n s; Some (PyDict (fst p), snd p)
    end.
Proof. reflexivity. Qed.

Lemma parse_quote n s :
  parse (S n) (String quote s) = p ← read_str s; Some (PyStr (fst p), snd p).
Proof. reflexivity. Qed.

(** The text of a value starts with a character that is neither white
    space nor a closing bracket. *)
Lemma encode_first indent level v :
  ∃ c s, encode indent level v = String c s
         ∧ is_ws c = false ∧ Ascii.eqb c "]" = false ∧ Ascii.eqb c "}" = false.
Proof.
  destruct v as [|[]|n|s|[|x l]|[|kv d]];
    try (eexists _, _; split; [reflexivity|]; repeat split; reflexivity).
  destruct (encode_int_first n) as (c & s & He & Hc).
  exists c, s. split; [exact He|]. split; [exact (number_char_not_ws c Hc)|].
  exact (number_char_not_closing c Hc).
Qed.

(** ** Values *)

(** [reads_back v]: the reader gets [v] back from its text, at every
    indent and nesting, with enough fuel and before every text that cannot
    continue a number. *)
Local Abbreviation reads_back v :=
  (∀ indent level n rest,
     size v ≤ n → ends_value rest →
     parse n (encode indent level v +:+ rest) = Some (v, rest)).

Lemma newline_indent_cons indent level s :
  newline_indent indent level +:+ s = String newline (spaces (indent * level) +:+ s).
Proof. reflexivity. Qed.

Lemma join_two sep (a b : string) l :
  join sep (a :: b :: l) = a +:+ sep +:+ join sep (b :: l).
Proof. reflexivity. Qed.

Lemma parse_elements_join indent level level' l :
  Forall (λ v, reads_back v) l →
  ∀ x n rest,
    reads_back x →
    S (size x) + list_sum (List.map (λ v, S (size v)) l) ≤ n →
    parse_elements n
      (join ("," +:+ newline_indent indent level)
         (List.map (encode indent level) (x :: l))
       +:+ newline_indent indent level' +:+ "]" +:+ rest)
    = Some (x :: l, rest).
Proof.
  induction 1 as [|y l Hy Hl IH]; intros x n rest Hx Hn.
  - destruct n as [|n]; [lia|]. cbn [List.map join parse_elements].
    rewrite (Hx indent level n); [|cbn in Hn; lia|reflexivity].
    cbn [mbind option_bind fst snd].
    rewrite peek_newline_indent, app_cons, app_nil_l, peek_cons by reflexivity.
    cbn [Ascii.eqb]. rewrite peek_newline_indent, peek_cons by reflexivity.
    reflexivity.
  - destruct n as [|n]; [lia|]. cbn [List.map parse_elements].
    assert (S (size x) + (S (size y) + list_sum (List.map (λ v, S (size v)) l)) ≤ S n)
      as Hn' by exact Hn.
    rewrite join_two, !app_assoc.
    rewrite (Hx indent level n); [|lia|reflexivity].
    cbn [mbind option_bind fst snd].
    rewrite app_cons, app_nil_l, peek_cons by reflexivity.
    change (Ascii.eqb "," ",") with true. cbv iota.
    rewrite parse_elements_newline_indent.
    change (encode indent level y :: List.map (encode indent level) l)
      with (List.map (encode indent level) (y :: l)).
    rewrite (IH y n rest Hy); [reflexivity|lia].
Qed.

Lemma colon_space_app r : ": " +:+ r = String ":" (String " " r).
Proof. reflexivity. Qed.

Lemma parse_members_join indent level level' d :
  Forall (λ kv, reads_back (snd kv)) d →
  ∀ kv n rest,
    reads_back (snd kv) →
    S (size (snd kv)) + list_sum (List.map (λ kv, S (size (snd kv))) d) ≤ n →
    parse_members n
      (join ("," +:+ newline_indent indent level)
         (List.map (λ kv, encode_str (fst kv) +:+ ": " +:+ encode indent level (snd kv))
            (kv :: d))
       +:+ newline_indent indent level' +:+ "}" +:+ rest)
    = Some (kv :: d, rest).
Proof.
  induction 1 as [|kv' d Hkv' Hd IH]; intros [k x] n rest Hx Hn; cbn [fst snd] in *.
  - destruct n as [|n]; [lia|]. cbn [List.map join parse_members fst snd].
    rewrite !app_assoc, encode_str_app, peek_cons by reflexivity.
    change (Ascii.eqb quote quote) with true. cbn [mbind option_bind].
    rewrite read_str_escape. cbn [mbind option_bind fst snd].
    rewrite colon_space_app. rewrite peek_cons by reflexivity.
    change (Ascii.eqb ":" ":") with true. cbn [mbind option_bind].
    rewrite parse_space, (Hx indent level n); [|cbn in Hn; lia|reflexivity].
    cbn [mbind option_bind fst snd].
    rewrite !peek_newline_indent, app_cons, app_nil_l, !peek_cons by reflexivity.
    reflexivity.
  - destruct n as [|n]; [lia|]. cbn [List.map parse_members fst snd].
    assert (S (size x) + (S (size (snd kv')) + list_sum (List.map (λ kv, S (size (snd kv))) d))
            ≤ S n) as Hn' by exact Hn.
    rewrite join_two, !app_assoc, encode_str_app, peek_cons by reflexivity.
    change (Ascii.eqb quote quote) with true. cbn [mbind option_bind].
    rewrite read_str_escape. cbn [mbind option_bind fst snd].
    rewrite colon_space_app. rewrite peek_cons by reflexivity.
    change (Ascii.eqb ":" ":") with true. cbn [mbind option_bind].
    rewrite parse_space, (Hx indent level n); [|lia|reflexivity].
    cbn [mbind option_bind fst snd].
    rewrite app_cons, app_nil_l, peek_cons by reflexivity.
    change (Ascii.eqb "," ",") with true. cbv iota.
    rewrite parse_members_newline_indent.
    assert (S (size (snd kv')) + list_sum (List.map (λ kv, S (size (snd kv))) d) ≤ n)
      as Hfuel by lia.
    pose proof (IH kv' n rest Hkv' Hfuel) as Hrec. cbn [List.map] in Hrec.
    rewrite Hrec. reflexivity.
Qed.

Lemma parse_elements_join_newline indent level l x n rest :
  Forall (λ v, reads_back v) l →
  reads_back x →
  S (size x) + list_sum (List.map (λ v, S (size v)) l) ≤ n →
  parse_elements n
    (newline_indent indent (S level)
     +:+ join ("," +:+ newline_indent indent (S level))
           (List.map (encode indent (S level)) (x :: l))
     +:+ newline_indent indent level +:+ "]" +:+ rest)
  = Some (x :: l, rest).
Proof.
  intros Hl Hx Hn. rewrite parse_elements_newline_indent.
  apply parse_elements_join; assumption.
Qed.

Lemma parse_members_join_newline indent level d kv n rest :
  Forall (λ kv, reads_back (snd kv)) d →
  reads_back (snd kv) →
  S (size (snd kv)) + list_sum (List.map (λ kv, S (size (snd kv))) d) ≤ n →
  parse_members n
    (newline_indent indent (S level)
     +:+ join ("," +:+ newline_indent indent (S level))
           (List.map (λ kv, encode_str (fst kv) +:+ ": " +:+ encode indent (S level) (snd kv))
              (kv :: d))
     +:+ newline_indent indent level +:+ "}" +:+ rest)
  = Some (kv :: d, rest).
Proof.
  intros Hd Hkv Hn. rewrite parse_members_newline_indent.
  apply parse_members_join; assumption.
Qed.

Lemma join_first sep a l r : ∃ r', join sep (a :: l) +:+ r = a +:+ r'.
Proof.
  destruct l as [|b l]; [exists r; reflexivity|].
  rewrite join_two, !app_assoc. eauto.
Qed.

Lemma encode_list indent level x l rest :
  encode indent level (PyList (x :: l)) +:+ rest
  = String "["
      (newline_indent indent (S level)
       +:+ join ("," +:+ newline_indent indent (S level))
             (List.map (encode indent (S level)) (x :: l))
       +:+ newline_indent indent level +:+ "]" +:+ rest).
Proof. cbn [encode]. rewrite !app_assoc, app_cons, app_nil_l. reflexivity. Qed.

Lemma encode_dict indent level kv d rest :
  encode indent level (PyDict (kv :: d)) +:+ rest
  = String "{"
      (newline_indent indent (S level)
       +:+ join ("," +:+ newline_indent indent (S level))
             (List.map (λ kv, encode_str (fst kv) +:+ ": " +:+ encode indent (S level) (snd kv))
                (kv :: d))
       +:+ newline_indent indent level +:+ "}" +:+ rest).
Proof. cbn [encode]. rewrite !app_assoc, app_cons, app_nil_l. reflexivity. Qed.

(** The reader gets every value back from its text. *)
Lemma value_reads_back v : reads_back v.
Proof.
  induction v as [|b|z|s|l Hl|d Hd] using value_ind_nested;
    intros indent level n rest Hn Hrest.
  - destruct n as [|n]; [cbn in Hn; lia|]. reflexivity.
  - destruct n as [|n]; [cbn in Hn; lia|]. destruct b; reflexivity.
  - destruct n as [|n]; [cbn in Hn; lia|]. apply parse_int, Hrest.
  - destruct n as [|n]; [cbn in Hn; lia|].
    cbn [encode]. rewrite encode_str_app, parse_quote, read_str_escape. reflexivity.
  - destruct n as [|n]; [cbn in Hn; lia|].
    destruct Hl as [|x l Hx Hl]; [reflexivity|].
    rewrite encode_list, parse_open_bracket.
    assert (peek "]"
              (newline_indent indent (S level)
               +:+ join ("," +:+ newline_indent indent (S level))
                     (List.map (encode indent (S level)) (x :: l))
               +:+ newline_indent indent level +:+ "]" +:+ rest) = None) as ->.
    { rewrite peek_newline_indent. cbn [List.map].
      destruct (join_first ("," +:+ newline_indent indent (S level))
                  (encode indent (S level) x) (List.map (encode indent (S level)) l)
                  (newline_indent indent level +:+ "]" +:+ rest)) as [r' ->].
      destruct (encode_first indent (S level) x) as (c & s & -> & Hws & Hc & _).
      rewrite app_cons, peek_cons, Hc by exact Hws. reflexivity. }
    rewrite parse_elements_join_newline; [reflexivity|exact Hl|exact Hx|].
    assert (S (S (size x) + list_sum (List.map (λ v, S (size v)) l)) ≤ S n)
      as Hn' by exact Hn.
    lia.
  - destruct n as [|n]; [cbn in Hn; lia|].
    destruct Hd as [|kv d Hkv Hd]; [reflexivity|].
    rewrite encode_dict, parse_open_brace.
    assert (peek "}"
              (newline_indent indent (S level)
               +:+ join ("," +:+ newline_indent indent (S level))
                     (List.map (λ kv, encode_str (fst kv) +:+ ": "
                                      +:+ encode indent (S level) (snd kv)) (kv :: d))
               +:+ newline_indent indent level +:+ "}" +:+ rest) = None) as ->.
    { rewrite peek_newline_indent. cbn [List.map].
      destruct (join_first ("," +:+ newline_indent indent (S level))
                  (encode_str (fst kv) +:+ ": " +:+ encode indent (S level) (snd kv))
                  (List.map (λ kv, encode_str (fst kv) +:+ ": "
                                   +:+ encode indent (S level) (snd kv)) d)
                  (newline_indent indent level +:+ "}" +:+ rest)) as [r' ->].
      rewrite app_assoc, encode_str_app, peek_cons by reflexivity. reflexivity. }
    rewrite parse_members_join_newline; [reflexivity|exact Hd|exact Hkv|].
    assert (S (S (size (snd kv)) + list_sum (List.map (λ kv, S (size (snd kv))) d)) ≤ S n)
      as Hn' by exact Hn.
    lia.
Qed.

(** ** Fuel *)

Lemma sum_le_join {A} (f : A → nat) (g : A → string) sep l :
  Forall (λ x, f x ≤ String.length (g x)) l →
  1 ≤ String.length sep →
  list_sum (List.map (λ x, S (f x)) l) ≤ S (String.length (join sep (List.map g l))).
Proof.
  intros Hl Hsep. induction Hl as [|x l Hx Hl IH]; [cbn; lia|].
  destruct l as [|y l].
  - cbn. lia.
  - change (list_sum (List.map (λ x, S (f x)) (x :: y :: l)))
      with (S (f x) + list_sum (List.map (λ x, S (f x)) (y :: l))).
    change (List.map g (x :: y :: l)) with (g x :: g y :: List.map g l).
    rewrite join_two, !length_app.
    change (g y :: List.map g l) with (List.map g (y :: l)). lia.
Qed.

Lemma length_newline_indent indent level :
  1 ≤ String.length (newline_indent indent level).
Proof. unfold newline_indent. cbn. lia. Qed.

Lemma size_le_length v : ∀ indent level, size v ≤ String.length (encode indent level v).
Proof.
  induction v as [|b|z|s|l Hl|d Hd] using value_ind_nested; intros indent level.
  - cbn. lia.
  - destruct b; cbn; lia.
  - cbn [size encode]. destruct (encode_int_first z) as (c & s & -> & _). cbn. lia.
  - cbn. lia.
  - destruct l as [|x l]; [cbn; lia|].
    pose proof (encode_list indent level x l "") as He. rewrite app_nil_r in He.
    rewrite He. cbn [String.length]. rewrite !length_app.
    pose proof (sum_le_join size (encode indent (S level))
                  ("," +:+ newline_indent indent (S level)) (x :: l)) as Hsum.
    change (size (PyList (x :: l)))
      with (S (list_sum (List.map (λ v, S (size v)) (x :: l)))).
    pose proof (length_newline_indent indent (S level)).
    pose proof (length_newline_indent indent level).
    assert (list_sum (List.map (λ v, S (size v)) (x :: l))
            ≤ S (String.length (join ("," +:+ newline_indent indent (S level))
                                  (List.map (encode indent (S level)) (x :: l))))) as Hle.
    { apply Hsum; [|rewrite length_app; cbn; lia].
      eapply Forall_impl; [exact Hl|]. intros v Hv. apply Hv. }
    lia.
  - destruct d as [|kv d]; [cbn; lia|].
    pose proof (encode_dict indent level kv d "") as He. rewrite app_nil_r in He.
    rewrite He. cbn [String.length]. rewrite !length_app.
    pose proof (sum_le_join (λ kv, size (snd kv))
                  (λ kv, encode_str (fst kv) +:+ ": " +:+ encode indent (S level) (snd kv))
                  ("," +:+ newline_indent indent (S level)) (kv :: d)) as Hsum.
    change (size (PyDict (kv :: d)))
      with (S (list_sum (List.map (λ kv, S (size (snd kv))) (kv :: d)))).
    pose proof (length_newline_indent indent (S level)).
    pose proof (length_newline_indent indent level).
    assert (list_sum (List.map (λ kv, S (size (snd kv))) (kv :: d))
            ≤ S (String.length
                   (join ("," +:+ newline_indent indent (S level))
                      (List.map (λ kv, encode_str (fst kv) +:+ ": "
                                       +:+ encode indent (S level) (snd kv)) (kv :: d)))))
      as Hle.
    { apply Hsum; [|rewrite length_app; cbn; lia].
      eapply Forall_impl; [exact Hd|]. intros e He'. cbn beta.
      rewrite !length_app. specialize (He' indent (S level)). lia. }
    lia.
Qed.

(** [json.loads(json.dumps(v, indent=indent))] is [v]. *)
Lemma loads_dumps indent v : loads (dumps indent v) = Some v.
Proof.
  unfold loads, dumps.
  pose proof (value_reads_back v indent 0 (S (String.length (encode indent 0 v))) "") as H.
  rewrite app_nil_r in H. rewrite H; [reflexivity| |exact I].
  pose proof (size_le_length v indent 0). lia.
Qed.

End JsonFacts.

(** * Properties of the report generator *)

Module SortFacts.
Import ReportGenerator.

Section Keyed.
Context {A : Type}.
Implicit Types (l : list (nat * A)) (k : nat) (x : A).

Lemma insert_by_perm k x l : Permutation (insert_by k x l) ((k, x) :: l).
Proof.
  induction l as [|[k' y] l IH]; cbn; [reflexivity|].
  destruct (k <=? k'); [reflexivity|].
  rewrite IH. apply perm_swap.
Qed.

Lemma sort_keyed_perm l : Permutation (sort_keyed l) l.
Proof.
  induction l as [|[k x] l IH]; cbn; [reflexivity|].
  rewrite insert_by_perm, IH. reflexivity.
Qed.

Local Abbreviation key_le := (λ p q : nat * A, fst p ≤ fst q).

Lemma insert_by_hd k x l p :
  key_le p (k, x) → HdRel key_le p l → HdRel key_le p (insert_by k x l).
Proof.
  intros Hp Hl. destruct l as [|[k' y] l]; cbn; [constructor; exact Hp|].
  destruct (k <=? k'); constructor; [exact Hp|].
  inversion Hl; assumption.
Qed.

Lemma insert_by_sorted k x l :
  Sorted key_le l → Sorted key_le (insert_by k x l).
Proof.
  induction l as [|[k' y] l IH]; cbn; intros Hs.
  - repeat constructor.
  - destruct (Nat.leb_spec k k') as [Hle|Hlt].
    + constructor; [exact Hs|]. constructor. exact Hle.
    + inversion Hs as [|? ? Hs' Hhd]; subst. constructor; [apply IH, Hs'|].
      apply insert_by_hd; [cbn; lia|exact Hhd].
Qed.

Lemma sort_keyed_sorted l : Sorted key_le (sort_keyed l).
Proof.
  induction l as [|[k x] l IH]; cbn; [constructor|].
  apply insert_by_sorted, IH.
Qed.

(** Stability: within one key the elements keep their order. *)
Lemma insert_by_filter k0 k x l :
  filter (λ p, fst p = k0) (insert_by k x l)
  = filter (λ p, fst p = k0) ((k, x) :: l).
Proof.
  induction l as [|[k' y] l IH]; cbn [insert_by]; [reflexivity|].
  destruct (Nat.leb_spec k k') as [Hle|Hlt]; [reflexivity|].
  rewrite filter_cons, IH, !filter_cons. cbn [fst].
  destruct (decide (k' = k0)) as [->|Hk']; [|reflexivity].
  destruct (decide (k = k0)) as [->|Hk]; [lia|reflexivity].
Qed.

Lemma sort_keyed_filter k0 l :
  filter (λ p, fst p = k0) (sort_keyed l) = filter (λ p, fst p = k0) l.
Proof.
  induction l as [|[k x] l IH]; cbn [sort_keyed]; [reflexivity|].
  rewrite insert_by_filter, !filter_cons, IH. reflexivity.
Qed.

(** From keyed pairs back to the elements, when each pair carries the
    key of its element. *)
Lemma sorted_map_snd (f : A → nat) l :
  Forall (λ p, fst p = f (snd p)) l →
  Sorted key_le l →
  Sorted (λ a b, f a ≤ f b) (List.map snd l).
Proof.
  intros Hkey Hs. induction Hs as [|p l Hs IH Hhd]; cbn; [constructor|].
  inversion Hkey as [|? ? Hp Hl]; subst. constructor; [apply IH, Hl|].
  destruct Hhd as [|q l Hpq]; cbn; constructor.
  inversion Hl as [|? ? Hq _]; subst. cbn in Hpq. lia.
Qed.

Lemma filter_map_snd (f : A → nat) k l :
  Forall (λ p, fst p = f (snd p)) l →
  filter (λ x, f x = k) (List.map snd l)
  = List.map snd (filter (λ p, fst p = k) l).
Proof.
  induction 1 as [|[k' x] l Hp Hl IH]; [reflexivity|].
  cbn [List.map snd]. rewrite !filter_cons, IH. cbn [fst snd] in *.
  rewrite Hp. destruct (decide (f x = k)); reflexivity.
Qed.

Lemma keyed_map (f : A → nat) (l : list A) :
  Forall (λ p, fst p = f (snd p)) (List.map (λ x, (f x, x)) l).
Proof. induction l; cbn; constructor; auto. Qed.

(** The stable sort by a total key. *)
Lemma sort_by_key_spec (f : A → nat) (l : list A) :
  let out := List.map snd (sort_keyed (List.map (λ x, (f x, x)) l)) in
  Permutation out l
  ∧ StronglySorted (λ a b, f a ≤ f b) out
  ∧ ∀ k, filter (λ x, f x = k) out = filter (λ x, f x = k) l.
Proof.
  cbn zeta.
  assert (Forall (λ p, fst p = f (snd p)) (sort_keyed (List.map (λ x, (f x, x)) l)))
    as Hkeyed.
  { eapply Permutation_Forall; [symmetry; apply sort_keyed_perm|apply keyed_map]. }
  split; [|split].
  - etransitivity; [apply Permutation_map, sort_keyed_perm|].
    rewrite List.map_map. cbn. rewrite List.map_id. reflexivity.
  - apply Sorted_StronglySorted.
    + intros a b c ? ?. lia.
    + apply sorted_map_snd; [exact Hkeyed|apply sort_keyed_sorted].
  - intros k. rewrite (filter_map_snd f k _ Hkeyed), sort_keyed_filter.
    rewrite <- (filter_map_snd f k _ (keyed_map f l)).
    rewrite List.map_map. cbn. rewrite List.map_id. reflexivity.
Qed.

End Keyed.

End SortFacts.

Module ReportFacts.
Import ReportGenerator ReportSpec.

(** ** The sort key *)

Lemma severity_key_record x :
  vulnerability_record x = true → severity_key x = Returned (rank x).
Proof.
  unfold rank. destruct x as [| | | | |d]; try discriminate. cbn.
  unfold dict_get. destruct (dict_lookup "severity" d) as [[]|]; try discriminate;
    reflexivity.
Qed.

Lemma mapM_severity_key l :
  Forall (λ x, vulnerability_record x = true) l →
  mapM severity_key l = Returned (List.map rank l).
Proof.
  induction 1 as [|x l Hx Hl IH]; [reflexivity|].
  cbn [mapM]. rewrite (severity_key_record x Hx), IH. reflexivity.
Qed.

Lemma zip_map_rank (l : list value) :
  zip (List.map rank l) l = List.map (λ x, (rank x, x)) l.
Proof. induction l; cbn; congruence. Qed.

Lemma sort_records l :
  Forall (λ x, vulnerability_record x = true) l →
  _sort_vulnerabilities (PyList l)
  = Returned (List.map snd (sort_keyed (List.map (λ x, (rank x, x)) l))).
Proof.
  intros Hl. unfold _sort_vulnerabilities, sorted.
  cbn [iterate mbind result_bind Py.bind].
  rewrite (mapM_severity_key l Hl). cbn [mbind result_bind Py.bind].
  rewrite zip_map_rank. reflexivity.
Qed.

Lemma rank_of_severity d s :
  dict_lookup "severity" d = Some (PyStr s) →
  rank (PyDict d) = dict_get (lower s) 5 severity_order.
Proof. intros H. unfold rank, severity_key, dict_get. cbn. rewrite H. reflexivity. Qed.

Lemma rank_table_five name :
  dict_get name 5 severity_order = 5 ↔ name ∉ severity_names.
Proof.
  unfold dict_get, severity_order, severity_names. cbn [dict_lookup].
  repeat match goal with
         | |- context [String.eqb ?a name] =>
             destruct (String.eqb_spec a name) as [<-|?];
             [cbn [from_option id]; split;
              [discriminate|intros Hnot; exfalso; apply Hnot; rewrite !elem_of_cons; intuition congruence]|]
         end.
  cbn [from_option id]. split; [intros _|reflexivity].
  rewrite !elem_of_cons, elem_of_nil. intuition congruence.
Qed.

(** C10.  The severity rank of a record is read from its severity
    without regard to case: two records whose severities are equal after
    lowering have the same rank, and the lowered names [critical], [high],
    [medium], [low] and [info] have the ranks 0 to 4.  A record without a
    severity has the rank of [info], 4.  The rank is 5 exactly when the
    record has a severity and its lowering is none of the five names. *)
Theorem severity_rank_ignores_case_and_defaults_to_info d :
  (∀ d' s s', dict_lookup "severity" d = Some (PyStr s) →
              dict_lookup "severity" d' = Some (PyStr s') →
              lower s = lower s' →
              severity_key (PyDict d) = severity_key (PyDict d'))
  ∧ (∀ s, dict_lookup "severity" d = Some (PyStr s) →
          severity_key (PyDict d) = Returned (dict_get (lower s) 5 severity_order)
          ∧ (lower s = "critical" → severity_key (PyDict d) = Returned 0)
          ∧ (lower s = "high" → severity_key (PyDict d) = Returned 1)
          ∧ (lower s = "medium" → severity_key (PyDict d) = Returned 2)
          ∧ (lower s = "low" → severity_key (PyDict d) = Returned 3)
          ∧ (lower s = "info" → severity_key (PyDict d) = Returned 4))
  ∧ (dict_lookup "severity" d = None → severity_key (PyDict d) = Returned 4)
  ∧ (severity_key (PyDict d) = Returned 5
     ↔ ∃ s, dict_lookup "severity" d = Some (PyStr s) ∧ lower s ∉ severity_names).
Proof.
  assert (∀ d0 s, dict_lookup "severity" d0 = Some (PyStr s) →
            severity_key (PyDict d0) = Returned (dict_get (lower s) 5 severity_order))
    as Hkey.
  { intros d0 s H. unfold severity_key, dict_get at 1. cbn. rewrite H. reflexivity. }
  split; [|split; [|split]].
  - intros d' s s' Hs Hs' Hlow. rewrite (Hkey _ _ Hs), (Hkey _ _ Hs'), Hlow. reflexivity.
  - intros s Hs. rewrite (Hkey _ _ Hs).
    repeat split; intros ->; reflexivity.
  - intros H. unfold severity_key, dict_get. cbn. rewrite H. reflexivity.
  - split.
    + unfold severity_key, dict_get at 1. cbn.
      destruct (dict_lookup "severity" d) as [[| | |s| |]|] eqn:Hs; cbn; try discriminate.
      intros [= H]. exists s. split; [reflexivity|]. apply (proj1 (rank_table_five _)), H.
    + intros (s & Hs & Hnot). rewrite (Hkey _ _ Hs). f_equal.
      apply (proj2 (rank_table_five _)), Hnot.
Qed.

Lemma mapM_raised {A B} (f : A → result B) (l : list A) e :
  mapM f l = Raised e → ∃ x, x ∈ l ∧ f x = Raised e.
Proof.
  induction l as [|x l IH]; cbn [mapM]; [discriminate|].
  destruct (f x) as [y|e'] eqn:Hx; cbn [mbind result_bind Py.bind].
  - destruct (mapM f l) as [ys|e'']; cbn [mbind result_bind Py.bind mret result_ret];
      [discriminate|].
    intros [= ->]. destruct (IH eq_refl) as (x' & Hin & Hx').
    exists x'. split; [right; exact Hin|exact Hx'].
  - intros [= ->]. exists x. split; [left|exact Hx].
Qed.

Lemma severity_key_raises x e :
  severity_key x = Raised e → is_value_error e = false.
Proof.
  unfold severity_key. destruct x; cbn; try (intros [= <-]; reflexivity).
  destruct (dict_get _ _ _); intros [= <-]; reflexivity.
Qed.

Lemma sort_raises v e :
  _sort_vulnerabilities v = Raised e → is_value_error e = false.
Proof.
  unfold _sort_vulnerabilities.
  destruct (iterate v) as [l|e'] eqn:Hit; cbn [mbind result_bind Py.bind].
  - unfold sorted. destruct (mapM severity_key l) as [keys|e'] eqn:Hm;
      cbn [mbind result_bind Py.bind]; [discriminate|].
    intros [= ->]. destruct (mapM_raised _ _ _ Hm) as (x & _ & Hx).
    exact (severity_key_raises _ _ Hx).
  - intros [= ->]. destruct v; cbn in Hit; try discriminate;
      injection Hit as <-; reflexivity.
Qed.

Section Environment.

Variable writable : string → bool.
Variable now : string.
Variable str : value → string.
Variable template_head : report_data → string.
Variable template_vulnerability : value → string.
Variable template_foot : string.
Variable weasyprint : option (string → result string).

Local Abbreviation prepare := (prepare_data now str).
Local Abbreviation html :=
  (_generate_html writable now str template_head template_vulnerability template_foot).
Local Abbreviation json := (_generate_json writable).
Local Abbreviation pdf :=
  (_generate_pdf writable now str template_head template_vulnerability template_foot
     weasyprint).
Local Abbreviation gen :=
  (generate writable now str template_head template_vulnerability template_foot
     weasyprint).
Local Abbreviation page :=
  (render template_head template_vulnerability template_foot).

Lemma summary_raises results e :
  _generate_summary str results = Raised e → is_value_error e = false.
Proof.
  unfold _generate_summary.
  destruct (dict_get "vulnerabilities" _ results); cbn;
    try (intros [= <-]; reflexivity);
    destruct (dict_get "severity_summary" _ results); cbn;
    try (intros [= <-]; reflexivity); discriminate.
Qed.

Lemma prepare_raises results e :
  prepare results = Raised e → is_value_error e = false.
Proof.
  unfold prepare_data.
  destruct (_generate_summary str results) as [sm|e'] eqn:Hs;
    cbn [mbind result_bind Py.bind].
  - destruct (_sort_vulnerabilities _) as [vs|e'] eqn:Hv;
      cbn [mbind result_bind Py.bind]; [discriminate|].
    intros [= ->]. exact (sort_raises _ _ Hv).
  - intros [= ->]. exact (summary_raises _ _ Hs).
Qed.

(** A renderable result structure is prepared without an exception, its
    vulnerabilities sorted. *)
Lemma prepare_renderable results :
  renderable results = true →
  ∃ vs data,
    dict_get "vulnerabilities" (PyList []) results = PyList vs
    ∧ Forall (λ x, vulnerability_record x = true) vs
    ∧ prepare results = Returned data
    ∧ _sort_vulnerabilities (PyList vs) = Returned (vulnerabilities data).
Proof.
  unfold renderable. intros [Hv Hs]%andb_prop.
  destruct (dict_get "vulnerabilities" _ results) as [| | | |vs|] eqn:Hvs;
    try discriminate.
  destruct (dict_get "severity_summary" _ results) as [| | | | |d] eqn:Hd;
    try discriminate.
  assert (Forall (λ x, vulnerability_record x = true) vs) as Hall.
  { apply Forall_forall. intros x Hx. rewrite forallb_forall in Hv.
    apply Hv, list_elem_of_In, Hx. }
  eexists vs, _. split; [reflexivity|]. split; [exact Hall|].
  unfold prepare_data, _generate_summary. rewrite Hvs, Hd.
  cbn [len as_dict mbind result_bind Py.bind].
  rewrite (sort_records vs Hall). cbn [mbind result_bind Py.bind].
  split; reflexivity.
Qed.

Lemma html_written results output_path w data :
  prepare results = Returned data →
  writable output_path = true →
  html results output_path w
  = (Returned tt,
     emit (Log INFO ("HTML report generated: " +:+ output_path) None)
       (write_file output_path (page data) (write_file output_path "" w))).
Proof.
  intros Hp Hw. unfold _generate_html, open_w. rewrite Hp, Hw. reflexivity.
Qed.

Lemma html_refused results output_path w data :
  prepare results = Returned data →
  writable output_path = false →
  html results output_path w = (Raised (OSError output_path), w).
Proof.
  intros Hp Hw. unfold _generate_html, open_w. rewrite Hp, Hw. reflexivity.
Qed.

Lemma html_raises results output_path w e :
  fst (html results output_path w) = Raised e → is_value_error e = false.
Proof.
  unfold _generate_html, open_w.
  destruct (prepare results) as [data|e'] eqn:Hp; cbn.
  - destruct (writable output_path); cbn; [discriminate|].
    intros [= <-]. reflexivity.
  - intros [= ->]. exact (prepare_raises _ _ Hp).
Qed.

Lemma generate_json results output_path w :
  gen results output_path "json" w = json results output_path w.
Proof. reflexivity. Qed.

Lemma generate_html results output_path w :
  gen results output_path "html" w = html results output_path w.
Proof. reflexivity. Qed.

Lemma generate_pdf results output_path w :
  gen results output_path "pdf" w = pdf results output_path w.
Proof. reflexivity. Qed.

Lemma pdf_raises results output_path w e :
  fst (pdf results output_path w) = Raised e → is_value_error e = false.
Proof.
  unfold _generate_pdf.
  pose proof (html_raises results (Py.replace ".pdf" ".html" output_path) w) as Hh.
  destruct (html results _ w) as [[[]|e'] w1]; cbn in *.
  - destruct (convert_pdf _ _ _ _ _) as [[|] ?]; discriminate.
  - intros [= ->]. apply Hh. reflexivity.
Qed.





(** *** The PDF path *)

(** When the HTML file has a path of its own and the conversion
    succeeds, the PDF is at the output path and the HTML file is gone. *)
Lemma pdf_converted results output_path w data convert bytes :
  let html_path := Py.replace ".pdf" ".html" output_path in
  html_path ≠ output_path →
  prepare results = Returned data →
  writable html_path = true →
  writable output_path = true →
  weasyprint = Some convert →
  convert (page data) = Returned bytes →
  let out := pdf results output_path w in
  fst out = Returned tt
  ∧ files (snd out) !! output_path = Some bytes
  ∧ files (snd out) !! html_path = None.
Proof.
  intros html_path Hne Hp Hwh Hwo Hconv Hbytes. cbn zeta.
  unfold _generate_pdf. fold html_path.
  rewrite (html_written _ _ _ _ Hp Hwh).
  unfold convert_pdf, open_w, unlink. rewrite Hconv. cbn [files emit write_file].
  rewrite lookup_insert_eq, Hbytes, Hwo. cbn [files emit write_file].
  rewrite !(lookup_insert_ne _ output_path html_path) by congruence.
  rewrite lookup_insert_eq. cbn.
  split; [reflexivity|]. split.
  - rewrite lookup_delete_ne by congruence. apply lookup_insert_eq.
  - apply lookup_delete_eq.
Qed.

(** When the conversion fails, the HTML file stays, the failure is
    logged and [_generate_pdf] returns normally. *)
Lemma pdf_fallback results output_path w data :
  let html_path := Py.replace ".pdf" ".html" output_path in
  prepare results = Returned data →
  writable html_path = true →
  (weasyprint = None
   ∨ ∃ convert e, weasyprint = Some convert ∧ convert (page data) = Raised e) →
  let out := pdf results output_path w in
  fst out = Returned tt
  ∧ files (snd out) !! html_path = Some (page data)
  ∧ ∃ e, log (snd out)
         = log w ++ [Log INFO ("HTML report generated: " +:+ html_path) None;
                     Log ERROR "Error generating PDF" (Some e);
                     Log INFO ("HTML report available at: " +:+ html_path) None].
Proof.
  intros html_path Hp Hwh Hfail. cbn zeta.
  unfold _generate_pdf. fold html_path.
  rewrite (html_written _ _ _ _ Hp Hwh).
  unfold convert_pdf. cbn [files emit write_file].
  destruct Hfail as [->|(convert & e & -> & Hc)].
  - cbn. split; [reflexivity|]. split; [apply lookup_insert_eq|].
    eexists. rewrite <- !app_assoc. reflexivity.
  - rewrite lookup_insert_eq, Hc. cbn.
    split; [reflexivity|]. split; [apply lookup_insert_eq|].
    eexists. rewrite <- !app_assoc. reflexivity.
Qed.

(** When the output path contains no [.pdf], the HTML file is written
    to the output path itself, and the removal of the HTML file removes
    the PDF just written there. *)
Lemma pdf_lost_when_paths_coincide results output_path w data convert bytes :
  Py.replace ".pdf" ".html" output_path = output_path →
  prepare results = Returned data →
  writable output_path = true →
  weasyprint = Some convert →
  convert (page data) = Returned bytes →
  let out := pdf results output_path w in
  fst out = Returned tt
  ∧ files (snd out) !! output_path = None
  ∧ log (snd out)
    = log w ++ [Log INFO ("HTML report generated: " +:+ output_path) None;
                Log INFO ("PDF report generated: " +:+ output_path) None].
Proof.
  intros Hsame Hp Hw Hconv Hbytes. cbn zeta.
  unfold _generate_pdf. rewrite Hsame.
  rewrite (html_written _ _ _ _ Hp Hw).
  unfold convert_pdf, open_w, unlink. rewrite Hconv. cbn [files emit write_file].
  rewrite lookup_insert_eq, Hbytes, Hw. cbn [files emit write_file].
  rewrite lookup_insert_eq. cbn.
  split; [reflexivity|]. split; [apply lookup_delete_eq|].
  rewrite <- !app_assoc. reflexivity.
Qed.

End Environment.

Import ReportSamples.

(** C4 at an output path without [.pdf]: the conversion succeeds, the
    success is logged, and no file is left at the output path. *)
Theorem pdf_report_removed_at_plain_path :
  let out := sample_generate everywhere sample_converter sample_results
               "report" "pdf" empty_world in
  fst out = Returned tt
  ∧ files (snd out) !! "report" = None
  ∧ files (snd out) = ∅
  ∧ log (snd out)
    = [Log INFO "HTML report generated: report" None;
       Log INFO "PDF report generated: report" None].
Proof. vm_compute. repeat split. Qed.

(** The same call with [report.pdf] and a conversion that fails: the HTML
    file stays next to it and the call returns. *)
Lemma failed_conversion_keeps_html :
  let out := sample_generate everywhere broken_converter sample_results
               "report.pdf" "pdf" empty_world in
  fst out = Returned tt
  ∧ files (snd out) !! "report.pdf" = None
  ∧ is_Some (files (snd out) !! "report.html")
  ∧ List.map (λ r, match r with Log lvl _ _ => lvl end) (log (snd out))
    = [INFO; ERROR; INFO].
Proof. vm_compute. repeat split. eauto. Qed.






Lemma severity_rank_witness :
  severity_key (PyDict [("severity", PyStr "CRITICAL")])
  = severity_key (PyDict [("type", PyStr "x"); ("severity", PyStr "critical")])
  ∧ severity_key (PyDict [("severity", PyStr "CRITICAL")]) = Returned 0
  ∧ severity_key (PyDict [("type", PyStr "x")]) = Returned 4
  ∧ severity_key (PyDict [("severity", PyStr "unrated")]) = Returned 5.
Proof.
  destruct (severity_rank_ignores_case_and_defaults_to_info
              [("severity", PyStr "CRITICAL")]) as (Hcase & Htable & _ & _).
  destruct (severity_rank_ignores_case_and_defaults_to_info
              [("type", PyStr "x")]) as (_ & _ & Hnone & _).
  destruct (severity_rank_ignores_case_and_defaults_to_info
              [("severity", PyStr "unrated")]) as (_ & _ & _ & Hfive).
  split; [|split; [|split]].
  - apply (Hcase [("type", PyStr "x"); ("severity", PyStr "critical")]
             "CRITICAL" "critical"); reflexivity.
  - destruct (Htable "CRITICAL" eq_refl) as (_ & H0 & _). apply H0. reflexivity.
  - apply Hnone. reflexivity.
  - apply Hfive. exists "unrated". split; [reflexivity|].
    unfold severity_names. rewrite !elem_of_cons, elem_of_nil.
    intros [H|[H|[H|[H|[H|[]]]]]]; discriminate H.
Defined.

End ReportFacts.

(** * Further properties of the HTTP client *)

Module ClientExtra.
Import Requests ClientSpec ExtraSpec.

Section Facts.

Variable wire : nat → Request → wire_result.
Variable url_refused : string → option requests_exc.

Lemma with_session_same c : HTTPClient.with_session c (HTTPClient.session c) = c.
Proof. destruct c; reflexivity. Qed.

(** What a call on a constructed client does once its keywords and its
    URL are accepted: one pass of the mounted adapter over the prepared
    request. *)
Lemma session_call_adapter ua enc proxy custom cookies config op url kwargs :
  let c := HTTPClient.init ua enc proxy custom cookies config in
  accepted c op kwargs = true →
  url_refused url = None →
  http_url url = true →
  ∃ q, request_of op c url kwargs = Some q
       ∧ session_call wire url_refused op c url kwargs
         = let '(res, attempts) := adapter_send wire (retry_strategy c) q in
           match res with
           | Returned resp =>
               {| ret := Returned resp;
                  session_after := store_cookies (HTTPClient.session c) resp;
                  sent := attempts |}
           | Raised e =>
               {| ret := Raised e; session_after := HTTPClient.session c;
                  sent := attempts |}
           end.
Proof.
  intros c Hacc Hurl Hhttp. unfold session_call, request_of.
  rewrite (ClientFacts.accepted_call_keywords _ _ _ Hacc).
  destruct (ClientFacts.accepted_bind_keywords _ _ _ Hacc) as [a Ha].
  unfold request. rewrite Ha, Hurl. subst c.
  rewrite (ClientFacts.init_get_adapter _ _ _ _ _ _ _ Hhttp).
  eexists. split; reflexivity.
Qed.

(** Attempts that are repeated, then an answer that is not. *)
Lemma urlopen_retries_then_answer r req resp :
  is_method_retryable r (req_method req) = true →
  final (status_forcelist r) resp = true →
  ∀ k left i,
    k ≤ left →
    (∀ j, j < k → retried r (wire (i + j) req) = true) →
    wire (i + k) req = Answer resp →
    urlopen wire r left i req = (Got resp, replicate (S k) req).
Proof.
  intros Hmethod Hfinal.
  assert (∀ left, is_retry r left (req_method req) resp = false) as Hstop.
  { intros left. unfold final in Hfinal. apply andb_prop in Hfinal as [Hcode Hafter].
    unfold is_retry. apply negb_true_iff in Hcode, Hafter. rewrite Hcode.
    destruct (has_retry_after resp), (bool_decide (status_code resp ∈ retry_after_status_codes));
      cbn in Hafter; try discriminate;
      rewrite ?andb_false_r, ?andb_false_l, ?orb_false_r, ?andb_false_r; reflexivity. }
  induction k as [|k IH]; intros left i Hle Hretry Hlast.
  - rewrite Nat.add_0_r in Hlast.
    destruct left; cbn [urlopen]; rewrite Hlast, Hstop; reflexivity.
  - destruct left as [|left]; [lia|].
    pose proof (Hretry 0 ltac:(lia)) as Hfirst. rewrite Nat.add_0_r in Hfirst.
    assert (urlopen wire r left (S i) req = (Got resp, replicate (S k) req)) as Hrec.
    { apply IH; [lia| |].
      - intros j Hj. replace (S i + j) with (i + S j) by lia. apply Hretry. lia.
      - replace (S i + k) with (i + S k) by lia. exact Hlast. }
    cbn [urlopen]. destruct (wire i req) as [resp'|e]; cbn [retried] in Hfirst.
    + unfold is_retry. rewrite Hmethod, Hfirst. cbn [andb orb]. rewrite Hrec. reflexivity.
    + rewrite Hmethod, andb_false_r, Hrec. reflexivity.
Qed.




(** A keyword that is not given has no value. *)
Lemma given_absent {A} (sel : kwarg → option A) name kws :
  (∀ k v, sel k = Some v → kw_name k = name) →
  has_keyword name kws = false →
  omap sel kws = [].
Proof.
  intros Hsel. induction kws as [|k kws IH]; [reflexivity|].
  cbn [has_keyword existsb]. intros [Hk Hrest]%orb_false_elim.
  cbn [omap list_omap]. destruct (sel k) as [v|] eqn:Hv.
  - apply Hsel in Hv. rewrite Hv, String.eqb_refl in Hk. discriminate.
  - apply IH, Hrest.
Qed.

Lemma has_keyword_app name a b :
  has_keyword name (a ++ b) = has_keyword name a || has_keyword name b.
Proof. unfold has_keyword. apply existsb_app. Qed.

(** The arguments bound for an operation. *)
Lemma bound_arguments op c kwargs a :
  bind_keywords (request_keywords op (own_keywords c op ++ kwargs)) = Returned a →
  match op with
  | HTTPClient.GET params _ allow_redirects =>
      a_params a = params ∧ a_allow_redirects a = allow_redirects
  | HTTPClient.POST data json _ => a_data a = data ∧ a_json a = json
  | HTTPClient.HEAD =>
      has_keyword "allow_redirects" kwargs = false → a_allow_redirects a = false
  | HTTPClient.OPTIONS =>
      has_keyword "allow_redirects" kwargs = false → a_allow_redirects a = true
  end.
Proof.
  unfold bind_keywords. destruct (find unexpected _); [discriminate|].
  intros [= <-]. cbn [a_params a_data a_json a_allow_redirects].
  destruct op; cbn [request_keywords own_keywords]; unfold setdefault.
  - destruct (has_keyword _ _); unfold given; rewrite ?omap_app; cbn; auto.
  - unfold given; rewrite ?omap_app; cbn; auto.
  - intros Hno. cbn [kw_name]. rewrite has_keyword_app, Hno.
    cbn [has_keyword existsb kw_name orb].
    change (String.eqb "timeout" "allow_redirects") with false.
    change (String.eqb "verify" "allow_redirects") with false. cbn [orb].
    unfold given. rewrite !omap_app.
    rewrite (given_absent allow_redirects_of "allow_redirects" kwargs); [reflexivity| |exact Hno].
    intros k b; destruct k; cbn; congruence.
  - intros Hno. cbn [kw_name]. rewrite has_keyword_app, Hno.
    cbn [has_keyword existsb kw_name orb].
    change (String.eqb "timeout" "allow_redirects") with false.
    change (String.eqb "verify" "allow_redirects") with false. cbn [orb].
    unfold given. rewrite !omap_app.
    rewrite (given_absent allow_redirects_of "allow_redirects" kwargs); [reflexivity| |exact Hno].
    intros k b; destruct k; cbn; congruence.
Qed.



(** Reading the cookie jar after an update: the update wins. *)
Lemma jar_lookup_update name l : ∀ j,
  jar_update j l !! name
  = match jar_update ∅ l !! name with
    | Some v => Some v
    | None => j !! name
    end.
Proof.
  induction l as [|[k0 v0] l IH]; intros j.
  - cbn. rewrite lookup_empty. reflexivity.
  - cbn [jar_update foldl fst snd].
    change (foldl _ ?j0 l) with (jar_update j0 l).
    rewrite (IH (<[k0:=v0]> j)), (IH (<[k0:=v0]> ∅)).
    destruct (jar_update ∅ l !! name); [reflexivity|].
    rewrite !lookup_insert. destruct (decide (k0 = name)); [reflexivity|].
    rewrite lookup_empty. reflexivity.
Qed.

Lemma init_cookies ua enc proxy custom cs config :
  Requests.cookies
    (HTTPClient.session (HTTPClient.init ua enc proxy custom (Some cs) config))
  = jar_update ∅ cs.
Proof.
  unfold HTTPClient.init.
  destruct (HTTPClient.truthy custom), cs as [|kv cs], (HTTPClient.truthy_str proxy);
    reflexivity.
Qed.

Lemma bound_cookies op c kwargs a :
  bind_keywords (request_keywords op (own_keywords c op ++ kwargs)) = Returned a →
  has_keyword "cookies" kwargs = false →
  a_cookies a = None.
Proof.
  unfold bind_keywords. destruct (find unexpected _); [discriminate|].
  intros [= <-] Hno. cbn [a_cookies].
  assert (omap cookies_of kwargs = []) as Hk.
  { apply (given_absent cookies_of "cookies"); [|exact Hno].
    intros k b; destruct k; cbn; congruence. }
  clear Hno.
  destruct op; cbn [request_keywords own_keywords]; unfold setdefault;
    try destruct (has_keyword _ _); unfold given; rewrite ?omap_app, Hk; reflexivity.
Qed.

(** A cookie of the session is sent with every request of a call that
    gives no cookies of its own. *)
Lemma session_cookie_sent op c url kwargs name v :
  Requests.cookies (HTTPClient.session c) !! name = Some v →
  has_keyword "cookies" kwargs = false →
  Forall (λ req, req_cookies req !! name = Some v)
    (HTTPClient.issued (HTTPClient.perform wire url_refused op c url kwargs)).
Proof.
  intros Hjar Hno.
  rewrite ClientFacts.perform_session_call, ClientFacts.try_request_issued.
  unfold session_call.
  destruct (call_keywords _ kwargs) as [kws|e] eqn:Hkw; [|constructor].
  assert (kws = own_keywords c op ++ kwargs) as ->.
  { unfold call_keywords in Hkw. destruct (find _ kwargs); congruence. }
  unfold request.
  destruct (bind_keywords _) as [a|] eqn:Ha; [|constructor].
  destruct (url_refused url); [constructor|].
  destruct (get_adapter _ url) as [r|]; [|constructor].
  unfold adapter_send.
  pose proof (ClientFacts.urlopen_sent wire r (total r) 0
                (prepare (HTTPClient.session c) (verb op) url a)) as Hsent.
  destruct (urlopen _ _ _ _ _) as [res att]. cbn [snd] in Hsent.
  assert (Forall (λ req, req_cookies req !! name = Some v) att) as Hall.
  { eapply Forall_impl; [exact Hsent|]. intros req ->. cbn [req_cookies prepare].
    rewrite (bound_cookies _ _ _ _ Ha Hno). exact Hjar. }
  destruct (translate res); exact Hall.
Qed.

(** A cookie of the session stays after a call, unless the response sets
    a cookie of that name. *)
Lemma session_cookie_kept op c url kwargs name v :
  let r := HTTPClient.perform wire url_refused op c url kwargs in
  Requests.cookies (HTTPClient.session c) !! name = Some v →
  (∀ resp, HTTPClient.result r = Returned (Some resp) →
           jar_update ∅ (set_cookies resp) !! name = None) →
  Requests.cookies (HTTPClient.session (HTTPClient.client_after r)) !! name = Some v.
Proof.
  cbn zeta. intros Hjar Hresp.
  revert Hresp. rewrite ClientFacts.perform_session_call.
  rewrite ClientFacts.try_request_client, ClientFacts.try_request_result.
  destruct (ClientFacts.session_call_after wire url_refused op c url kwargs)
    as [->|(resp & Hret & ->)]; intros Hresp; [exact Hjar|].
  rewrite Hret in Hresp. cbn [HTTPClient.session HTTPClient.with_session
                                Requests.cookies store_cookies].
  rewrite jar_lookup_update, (Hresp resp eq_refl). exact Hjar.
Qed.


Lemma init_get_adapter_returned ua enc proxy custom cookies config url r :
  let c := HTTPClient.init ua enc proxy custom cookies config in
  get_adapter (HTTPClient.session c) url = Returned r → r = retry_strategy c.
Proof.
  intros c. unfold get_adapter. subst c. rewrite ClientFacts.init_adapters.
  cbn [find fst snd].
  destruct (String.prefix (lower "https://") (lower url)); [intros [= <-]; reflexivity|].
  destruct (String.prefix (lower "http://") (lower url)); [intros [= <-]; reflexivity|].
  discriminate.
Qed.

Lemma urlopen_bound r req : ∀ left i,
  length (snd (urlopen wire r left i req)) ≤ S left.
Proof.
  induction left as [|left IH]; intros i; cbn [urlopen].
  - destruct (wire i req); [destruct (is_retry _ _ _ _); [destruct (raise_on_status r)|]
                           |destruct (_ && _)]; cbn; lia.
  - specialize (IH (S i)).
    destruct (wire i req).
    + destruct (is_retry _ _ _ _); [|cbn; lia].
      destruct (urlopen wire r left (S i) req); cbn in *; lia.
    + destruct (_ && _); [cbn; lia|].
      destruct (urlopen wire r left (S i) req); cbn in *; lia.
Qed.

Lemma init_settings ua enc proxy custom cookies config :
  let c := HTTPClient.init ua enc proxy custom cookies config in
  HTTPClient.timeout c
  = default 10%Z (cfg ← config; sc ← HTTPClient.scanner cfg; HTTPClient.cfg_timeout sc)
  ∧ HTTPClient.verify_ssl c
    = default true (cfg ← config; sc ← HTTPClient.scanner cfg;
                    HTTPClient.cfg_verify_ssl sc)
  ∧ HTTPClient.max_retries c
    = default 3 (cfg ← config; sc ← HTTPClient.scanner cfg;
                 HTTPClient.cfg_max_retries sc).
Proof. destruct config as [[[sc|]]|]; repeat split. Qed.


End Facts.

Lemma init_session_headers ua enc proxy custom cookies config :
  let c := HTTPClient.init ua enc proxy custom cookies config in
  headers (HTTPClient.session c)
  = ci_update
      (ci_update (headers (Session_new ua enc))
         (HTTPClient.default_headers (HTTPClient.user_agent c)))
      (default [] custom).
Proof.
  unfold HTTPClient.init.
  destruct custom as [[|kv custom]|], (HTTPClient.truthy cookies),
    (HTTPClient.truthy_str proxy); reflexivity.
Qed.

(** X7.  A constructed client sends the five headers of [__init__]
    (User-Agent with the configured or default user agent, Accept,
    Accept-Language, Accept-Encoding, Connection) with the values written
    there, whatever the session library would send by itself, for every
    one of them that the custom headers do not name; names are compared
    without regard to case.  The user agent is the configured one, or
    [Deep-Eye/1.0]. *)
Theorem client_headers_replace_library_defaults
    ua enc proxy custom cookies config k v :
  let c := HTTPClient.init ua enc proxy custom cookies config in
  ci_get k (ci_update ∅ (default [] custom)) = None →
  ci_get k (ci_update ∅ (HTTPClient.default_headers (HTTPClient.user_agent c))) = Some v →
  ci_get k (headers (HTTPClient.session c)) = Some v
  ∧ HTTPClient.user_agent c
    = default "Deep-Eye/1.0"
        (cfg ← config; sc ← HTTPClient.scanner cfg; HTTPClient.cfg_user_agent sc).
Proof.
  intros c Hcustom Hdefault. split.
  - subst c. rewrite init_session_headers.
    rewrite ClientFacts.ci_get_update, Hcustom.
    rewrite ClientFacts.ci_get_update, Hdefault. reflexivity.
  - subst c. destruct config as [[[sc|]]|]; reflexivity.
Qed.

(** X8.  A non-empty proxy given at construction is the proxy of the
    session for both schemes; an empty proxy string, an empty header
    mapping and an empty cookie mapping are each the same as giving
    nothing, and without a proxy the session has none. *)
Theorem proxy_and_empty_arguments ua enc proxy custom cookies config p :
  (p ≠ "" →
   proxies (HTTPClient.session (HTTPClient.init ua enc (Some p) custom cookies config))
   = {[ "http" := p; "https" := p ]})
  ∧ proxies (HTTPClient.session (HTTPClient.init ua enc None custom cookies config)) = ∅
  ∧ HTTPClient.init ua enc (Some "") custom cookies config
    = HTTPClient.init ua enc None custom cookies config
  ∧ HTTPClient.init ua enc proxy (Some []) cookies config
    = HTTPClient.init ua enc proxy None cookies config
  ∧ HTTPClient.init ua enc proxy custom (Some []) config
    = HTTPClient.init ua enc proxy custom None config.
Proof.
  split; [|split; [|split; [|split]]]; try reflexivity.
  - intros Hp. unfold HTTPClient.init.
    destruct p as [|ch p]; [congruence|].
    destruct (HTTPClient.truthy custom), (HTTPClient.truthy cookies); reflexivity.
  - unfold HTTPClient.init.
    destruct (HTTPClient.truthy custom), (HTTPClient.truthy cookies); reflexivity.
Qed.

Import Samples.







Lemma client_headers_witness :
  ci_get "ACCEPT-LANGUAGE" (headers (HTTPClient.session client2)) = Some "en-US,en;q=0.9"
  ∧ HTTPClient.user_agent client2 = "Deep-Eye/1.0".
Proof.
  apply (client_headers_replace_library_defaults
           "python-requests/2.31.0" "gzip, deflate"
           None (Some [("user-agent", "Scanner/2")]) None
           (Some {| HTTPClient.scanner :=
                      Some {| HTTPClient.cfg_timeout := Some 5%Z;
                              HTTPClient.cfg_verify_ssl := Some false;
                              HTTPClient.cfg_max_retries := Some 2;
                              HTTPClient.cfg_user_agent := None |} |})
           "ACCEPT-LANGUAGE" "en-US,en;q=0.9"); vm_compute; reflexivity.
Defined.

Lemma proxy_witness :
  proxies (HTTPClient.session client_with_cookie)
  = {[ "http" := "http://127.0.0.1:8080"; "https" := "http://127.0.0.1:8080" ]}.
Proof.
  apply (proxy_and_empty_arguments "python-requests/2.31.0" "gzip, deflate"
           None None (Some [("session", "abc")]) None "http://127.0.0.1:8080").
  discriminate.
Defined.


End ClientExtra.

(** * Further properties of the report generator *)

Module SortExtra.
Import ReportGenerator.

Section Keyed.
Context {A : Type}.

Local Abbreviation key_le := (λ p q : nat * A, fst p ≤ fst q).

Lemma insert_by_first k (x : A) l :
  HdRel key_le (k, x) l → insert_by k x l = (k, x) :: l.
Proof.
  destruct l as [|[k' y] l]; [reflexivity|].
  intros Hhd. inversion Hhd as [|? ? Hle]; subst. cbn in *.
  destruct (Nat.leb_spec k k'); [reflexivity|lia].
Qed.

(** Sorting a sorted list changes nothing. *)
Lemma sort_keyed_fixed (l : list (nat * A)) :
  Sorted key_le l → sort_keyed l = l.
Proof.
  induction 1 as [|[k x] l Hs IH Hhd]; [reflexivity|].
  cbn [sort_keyed]. rewrite IH. apply insert_by_first, Hhd.
Qed.

Lemma keyed_map_snd (f : A → nat) (l : list (nat * A)) :
  Forall (λ p, fst p = f (snd p)) l →
  List.map (λ x, (f x, x)) (List.map snd l) = l.
Proof.
  induction 1 as [|[k x] l Hp Hl IH]; [reflexivity|].
  cbn in *. rewrite IH, Hp. reflexivity.
Qed.

Variable f : A → nat.

Local Abbreviation by_key := (λ a b : A, f a ≤ f b).

Lemma filter_all (P : A → Prop) `{∀ x, Decision (P x)} (l : list A) :
  Forall P l → filter P l = l.
Proof.
  induction 1 as [|x l Hx Hl IH]; [reflexivity|].
  rewrite filter_cons, IH. destruct (decide (P x)); [reflexivity|contradiction].
Qed.

Lemma filter_none (P : A → Prop) `{∀ x, Decision (P x)} (l : list A) :
  Forall (λ x, ¬ P x) l → filter P l = [].
Proof.
  induction 1 as [|x l Hx Hl IH]; [reflexivity|].
  rewrite filter_cons, IH. destruct (decide (P x)); [contradiction|reflexivity].
Qed.

(** A sorted list begins with its elements of the least key. *)
Lemma sorted_split lo (out : list A) :
  StronglySorted by_key out →
  Forall (λ x, lo ≤ f x) out →
  out = filter (λ x, f x = lo) out ++ filter (λ x, lo < f x) out.
Proof.
  induction 1 as [|x out Hs IH Hall]; intros Hlo; [reflexivity|].
  inversion Hlo as [|? ? Hx Hout]; subst.
  rewrite !filter_cons.
  destruct (decide (f x = lo)) as [Heq|Hne].
  - destruct (decide (lo < f x)); [lia|].
    cbn. f_equal. apply IH, Hout.
  - destruct (decide (lo < f x)); [|lia].
    rewrite (filter_none (λ y, f y = lo)), (filter_all (λ y, lo < f y)); [reflexivity| |].
    + eapply Forall_impl; [exact Hall|]. cbn. intros; lia.
    + eapply Forall_impl; [exact Hall|]. cbn. intros; lia.
Qed.

Lemma strongly_sorted_filter (P : A → Prop) `{∀ x, Decision (P x)} (l : list A) :
  StronglySorted by_key l → StronglySorted by_key (filter P l).
Proof.
  induction 1 as [|x l Hs IH Hall]; [constructor|].
  rewrite filter_cons. destruct (decide (P x)); [|exact IH].
  constructor; [exact IH|].
  apply Forall_forall. intros y [_ Hy]%list_elem_of_filter.
  rewrite Forall_forall in Hall. apply Hall, Hy.
Qed.

Lemma classes_above lo (out : list A) n : ∀ lo',
  lo < lo' →
  flat_map (λ k, filter (λ x, f x = k) (filter (λ x, lo < f x) out)) (seq lo' n)
  = flat_map (λ k, filter (λ x, f x = k) out) (seq lo' n).
Proof.
  induction n as [|n IH]; intros lo' Hlo'; [reflexivity|].
  cbn [seq flat_map]. rewrite IH by lia. f_equal.
  rewrite list_filter_filter. apply list_filter_iff. intros x. lia.
Qed.

(** A sorted list whose keys are the [n] numbers from [lo] on is the
    concatenation of its classes of equal key. *)
Lemma sorted_classes n : ∀ lo (out : list A),
  StronglySorted by_key out →
  Forall (λ x, lo ≤ f x < lo + n) out →
  out = flat_map (λ k, filter (λ x, f x = k) out) (seq lo n).
Proof.
  induction n as [|n IH]; intros lo out Hs Hb.
  - destruct out as [|x out]; [reflexivity|].
    inversion Hb; subst. lia.
  - cbn [seq flat_map].
    rewrite (sorted_split lo out Hs) at 1
      by (eapply Forall_impl; [exact Hb|]; cbn; intros; lia).
    f_equal.
    rewrite (IH (S lo) (filter (λ x, lo < f x) out)) at 1.
    + apply classes_above. lia.
    + apply strongly_sorted_filter, Hs.
    + apply Forall_forall. intros x [Hx Hin]%list_elem_of_filter.
      rewrite Forall_forall in Hb. specialize (Hb x Hin). lia.
Qed.

End Keyed.

End SortExtra.

Module ReportExtra.
Import ReportGenerator ReportSpec ExtraSpec.

(** ** The sort *)

Lemma severity_key_other x :
  vulnerability_record x = false →
  ∃ m, severity_key x = Raised (AttributeError m).
Proof.
  destruct x as [| | | | |d]; cbn; eauto.
  unfold dict_get. destruct (dict_lookup "severity" d) as [[]|]; cbn;
    try discriminate; eauto.
Qed.

Lemma mapM_severity_key_raises l :
  forallb vulnerability_record l = false →
  ∃ m, mapM severity_key l = Raised (AttributeError m).
Proof.
  induction l as [|x l IH]; cbn [forallb mapM]; [discriminate|].
  destruct (vulnerability_record x) eqn:Hx; cbn [andb].
  - intros Hl. destruct (IH Hl) as (m & Hm).
    rewrite (ReportFacts.severity_key_record x Hx), Hm. eauto.
  - intros _. destruct (severity_key_other x Hx) as (m & ->). eauto.
Qed.

Lemma forallb_records l :
  forallb vulnerability_record l = true →
  Forall (λ x, vulnerability_record x = true) l.
Proof.
  intros H. apply Forall_forall. intros x Hx. rewrite forallb_forall in H.
  apply H, list_elem_of_In, Hx.
Qed.

Lemma sort_returned l out :
  _sort_vulnerabilities (PyList l) = Returned out →
  Forall (λ x, vulnerability_record x = true) l
  ∧ out = List.map snd (sort_keyed (List.map (λ x, (rank x, x)) l)).
Proof.
  intros Hout. destruct (forallb vulnerability_record l) eqn:Hl.
  - apply forallb_records in Hl. split; [exact Hl|].
    rewrite (ReportFacts.sort_records l Hl) in Hout. congruence.
  - destruct (mapM_severity_key_raises l Hl) as (m & Hm).
    unfold _sort_vulnerabilities, sorted in Hout.
    cbn [iterate mbind result_bind Py.bind] in Hout. rewrite Hm in Hout.
    discriminate.
Qed.

Lemma severity_order_bound name : dict_get name 5 severity_order ≤ 5.
Proof.
  unfold dict_get, severity_order. cbn [dict_lookup].
  repeat match goal with
         | |- context [String.eqb ?a name] =>
             destruct (String.eqb a name); [cbn [from_option id]; lia|]
         end.
  cbn [from_option id]. lia.
Qed.

Lemma rank_bound x : rank x ≤ 5.
Proof.
  unfold rank, severity_key. destruct x as [| | | | |d];
    cbn [as_dict mbind result_bind Py.bind]; try lia.
  destruct (dict_get "severity" (PyStr "info") d) as [| | |s| |]; try lia.
  apply severity_order_bound.
Qed.

(** X10.  [_sort_vulnerabilities] returns for a list exactly when every
    element is a vulnerability record, and then with a rearrangement of
    the list; a list with another element makes it raise an
    [AttributeError], and [None], a Boolean or a number in place of the
    list a [TypeError]. *)
Theorem sort_returns_exactly_on_records :
  (∀ l, if forallb vulnerability_record l
        then ∃ out, _sort_vulnerabilities (PyList l) = Returned out
                    ∧ Permutation out l
        else ∃ m, _sort_vulnerabilities (PyList l) = Raised (AttributeError m))
  ∧ (∀ v, sized v = false →
          ∃ m, _sort_vulnerabilities v = Raised (TypeError m)).
Proof.
  split.
  - intros l. destruct (forallb vulnerability_record l) eqn:Hl.
    + rewrite (ReportFacts.sort_records l (forallb_records l Hl)).
      eexists. split; [reflexivity|].
      apply (SortFacts.sort_by_key_spec rank l).
    + destruct (mapM_severity_key_raises l Hl) as (m & Hm).
      unfold _sort_vulnerabilities, sorted.
      cbn [iterate mbind result_bind Py.bind]. rewrite Hm. eauto.
  - intros v Hv. destruct v; try discriminate; cbn; eauto.
Qed.

(** X11.  Sorting is idempotent: the list [_sort_vulnerabilities]
    returns is returned unchanged when it is sorted again. *)
Theorem sort_is_idempotent l out :
  _sort_vulnerabilities (PyList l) = Returned out →
  _sort_vulnerabilities (PyList out) = Returned out.
Proof.
  intros Hout. destruct (sort_returned l out Hout) as [Hl ->].
  set (keyed := sort_keyed (List.map (λ x, (rank x, x)) l)).
  assert (Forall (λ p, fst p = rank (snd p)) keyed) as Hkeyed.
  { eapply Permutation_Forall; [symmetry; apply SortFacts.sort_keyed_perm|].
    apply SortFacts.keyed_map. }
  assert (Forall (λ x, vulnerability_record x = true) (List.map snd keyed)) as Hrec.
  { eapply Permutation_Forall; [|exact Hl]. symmetry.
    apply (SortFacts.sort_by_key_spec rank l). }
  rewrite (ReportFacts.sort_records _ Hrec).
  rewrite (SortExtra.keyed_map_snd rank keyed Hkeyed).
  rewrite (SortExtra.sort_keyed_fixed keyed); [reflexivity|].
  apply SortFacts.sort_keyed_sorted.
Qed.


(** ** The path of the HTML file of a PDF report *)

Lemma prefix_nil b : String.prefix "" b = true.
Proof. destruct b; reflexivity. Qed.

Lemma prefix_pdf b :
  String.prefix ".pdf" (".pdf" +:+ b) = true.
Proof.
  rewrite !JsonFacts.app_cons, JsonFacts.app_nil_l. cbn [String.prefix].
  repeat match goal with
         | |- context [ascii_dec ?a ?b] =>
             destruct (ascii_dec a b) as [_|Hne]; [|exfalso; apply Hne; reflexivity]
         end.
  apply prefix_nil.
Qed.

Lemma prefix_split old : ∀ s,
  String.prefix old s = true → ∃ b, s = old +:+ b.
Proof.
  induction old as [|c old IH]; intros s.
  - intros _. exists s. reflexivity.
  - destruct s as [|c' s]; cbn [String.prefix]; [discriminate|].
    destruct (ascii_dec c c') as [<-|]; [|discriminate].
    intros H. destruct (IH s H) as (b & ->). exists b.
    rewrite JsonFacts.app_cons. reflexivity.
Qed.

Lemma prefix_app old : ∀ b, String.prefix old (old +:+ b) = true.
Proof.
  induction old as [|c old IH]; intros b; [apply prefix_nil|].
  rewrite JsonFacts.app_cons. cbn [String.prefix].
  destruct (ascii_dec c c) as [_|Hne]; [apply IH|exfalso; apply Hne; reflexivity].
Qed.

Lemma prefix_longer old s t :
  String.prefix old (s +:+ t) = false → String.prefix old s = false.
Proof.
  intros H. destruct (String.prefix old s) eqn:Hs; [|reflexivity].
  destruct (prefix_split old s Hs) as (b & ->).
  rewrite JsonFacts.app_assoc, prefix_app in H. discriminate.
Qed.

(** No [.pdf] begins inside a string without one and ends in a [.pdf]
    that follows it. *)
Lemma prefix_pdf_no_straddle c s rest :
  String.prefix ".pdf" (String c s) = false →
  String.prefix ".pdf" (String c s +:+ ".pdf" +:+ rest) = false.
Proof.
  destruct s as [|c1 [|c2 [|c3 s]]];
    rewrite ?JsonFacts.app_cons, ?JsonFacts.app_nil_l; cbn [String.prefix];
    repeat match goal with
           | |- context [ascii_dec ?a ?b] =>
               destruct (ascii_dec a b) as [?|?]; try discriminate; try reflexivity
           end;
    rewrite ?prefix_nil; try discriminate; try reflexivity.
Qed.

Lemma replace_first a : ∀ b,
  contains ".pdf" a = false →
  Py.replace ".pdf" ".html" (a +:+ ".pdf" +:+ b)
  = a +:+ ".html" +:+ Py.replace ".pdf" ".html" b.
Proof.
  unfold Py.replace. induction a as [|c a IH]; intros b Ha.
  - rewrite !JsonFacts.app_nil_l.
    pose proof (prefix_pdf b) as Hp.
    rewrite !JsonFacts.app_cons, JsonFacts.app_nil_l in Hp |- *.
    cbn [Py.replace_from]. rewrite Hp. cbn [String.length Nat.sub Py.replace_from].
    rewrite !JsonFacts.app_cons, JsonFacts.app_nil_l. reflexivity.
  - cbn [contains] in Ha. apply orb_false_elim in Ha as [Hc Ha].
    pose proof (prefix_pdf_no_straddle c a b Hc) as Hp.
    rewrite JsonFacts.app_cons in Hp |- *.
    cbn [Py.replace_from]. rewrite Hp, (IH b Ha).
    rewrite JsonFacts.app_cons. reflexivity.
Qed.

Lemma replace_absent p :
  contains ".pdf" p = false → Py.replace ".pdf" ".html" p = p.
Proof.
  unfold Py.replace. induction p as [|c p IH]; [reflexivity|].
  cbn [contains]. intros [Hc Hp]%orb_false_elim.
  cbn [Py.replace_from]. rewrite Hc, (IH Hp). reflexivity.
Qed.

Lemma replace_not_shorter s : ∀ skip,
  String.length s ≤ String.length (Py.replace_from ".pdf" ".html" skip s) + skip.
Proof.
  induction s as [|c s IH]; intros skip; [cbn; lia|].
  cbn [Py.replace_from]. destruct skip as [|k].
  - destruct (String.prefix ".pdf" (String c s)).
    + rewrite JsonFacts.length_app. cbn [String.length Nat.sub].
      specialize (IH 3). lia.
    + cbn [String.length]. specialize (IH 0). lia.
  - cbn [String.length]. specialize (IH k). lia.
Qed.

Lemma contains_split p :
  contains ".pdf" p = true →
  ∃ a b, p = a +:+ ".pdf" +:+ b ∧ contains ".pdf" a = false.
Proof.
  induction p as [|c p IH]; [discriminate|].
  cbn [contains]. destruct (String.prefix ".pdf" (String c p)) eqn:Hc.
  - intros _. destruct (prefix_split _ _ Hc) as (b & Hb).
    exists "", b. split; [rewrite JsonFacts.app_nil_l; exact Hb|reflexivity].
  - cbn [orb]. intros Hp. destruct (IH Hp) as (a & b & -> & Ha).
    exists (String c a), b. split; [rewrite JsonFacts.app_cons; reflexivity|].
    cbn [contains]. rewrite Ha, orb_false_r.
    rewrite <- JsonFacts.app_cons in Hc. exact (prefix_longer _ _ _ Hc).
Qed.

Lemma replace_differs p :
  contains ".pdf" p = true → Py.replace ".pdf" ".html" p ≠ p.
Proof.
  intros Hp Heq. destruct (contains_split p Hp) as (a & b & -> & Ha).
  rewrite (replace_first a b Ha) in Heq.
  apply (f_equal String.length) in Heq.
  rewrite !JsonFacts.length_app in Heq. cbn [String.length] in Heq.
  pose proof (replace_not_shorter b 0) as Hb. unfold Py.replace in Heq. lia.
Qed.

(** ** Generation *)

Lemma prepare_readable now str results :
  readable results = true → ∃ data, prepare_data now str results = Returned data.
Proof.
  unfold readable. intros [Hv Hs]%andb_prop.
  unfold prepare_data, _generate_summary.
  destruct (dict_get "severity_summary" _ results) as [| | | | |d]; try discriminate.
  destruct (dict_get "vulnerabilities" _ results) as [| | |s|l|vd]; try discriminate.
  - destruct s; [|discriminate]. eexists. reflexivity.
  - cbn [len as_dict mbind result_bind Py.bind].
    rewrite (ReportFacts.sort_records l (forallb_records l Hv)).
    eexists. reflexivity.
  - destruct vd; [|discriminate]. eexists. reflexivity.
Qed.

Lemma prepare_unreadable now str results :
  readable results = false →
  ∃ e, prepare_data now str results = Raised e
       ∧ (if sized (dict_get "vulnerabilities" (PyList []) results)
          then is_attribute_error e else is_type_error e) = true.
Proof.
  unfold readable, prepare_data, _generate_summary.
  destruct (dict_get "vulnerabilities" _ results) as [| | |s|l|vd];
    try (intros _; eexists; split; reflexivity);
    (destruct (dict_get "severity_summary" _ results) as [| | | | |d];
     try (intros _; eexists; split; reflexivity)).
  - destruct s; [discriminate|]. intros _. eexists. split; reflexivity.
  - rewrite andb_true_r. intros Hl.
    destruct (mapM_severity_key_raises l Hl) as (m & Hm).
    cbn [len as_dict mbind result_bind Py.bind].
    unfold _sort_vulnerabilities, sorted. cbn [iterate mbind result_bind Py.bind].
    rewrite Hm. eexists. split; reflexivity.
  - destruct vd; [discriminate|]. intros _. eexists. split; reflexivity.
Qed.

Ltac open_world :=
  unfold remove_file, emit, write_file; cbn [fst snd files log].

Section Environment.

Variable writable : string → bool.
Variable now : string.
Variable str : value → string.
Variable template_head : report_data → string.
Variable template_vulnerability : value → string.
Variable template_foot : string.
Variable weasyprint : option (string → result string).

Local Abbreviation prepare := (prepare_data now str).
Local Abbreviation html :=
  (_generate_html writable now str template_head template_vulnerability template_foot).
Local Abbreviation pdf :=
  (_generate_pdf writable now str template_head template_vulnerability template_foot
     weasyprint).
Local Abbreviation gen :=
  (generate writable now str template_head template_vulnerability template_foot
     weasyprint).
Local Abbreviation page :=
  (render template_head template_vulnerability template_foot).
Local Abbreviation html_path_of := (Py.replace ".pdf" ".html").


(** X14.  When the report data are prepared, both paths can be opened and
    the conversion succeeds, [generate] with format [pdf] returns, and
    afterwards the PDF is at the output path exactly when that path
    contains [.pdf]; otherwise no file is there.  No file is left at the
    path of the HTML file. *)
Theorem pdf_kept_exactly_when_path_names_pdf results output_path w data convert bytes :
  prepare results = Returned data →
  writable (html_path_of output_path) = true →
  writable output_path = true →
  weasyprint = Some convert →
  convert (page data) = Returned bytes →
  let out := gen results output_path "pdf" w in
  fst out = Returned tt
  ∧ files (snd out) !! output_path
    = (if contains ".pdf" output_path then Some bytes else None)
  ∧ files (snd out) !! html_path_of output_path = None.
Proof.
  intros Hp Hwh Hwo Hconv Hbytes. cbn zeta.
  change (gen results output_path "pdf" w) with (pdf results output_path w).
  destruct (contains ".pdf" output_path) eqn:Hc.
  - pose proof (replace_differs output_path Hc) as Hne.
    eapply ReportFacts.pdf_converted; eauto.
  - pose proof (replace_absent output_path Hc) as Hsame.
    rewrite Hsame in *.
    edestruct ReportFacts.pdf_lost_when_paths_coincide as (H1 & H2 & _); eauto.
Qed.

(** X15.  For an output path [a.pdf b] whose part [a] contains no
    [.pdf], the HTML file of a PDF report is at [a.html b'], where [b']
    is [b] with every [.pdf] replaced as well; for [report.pdf] it is
    [report.html].  When the conversion succeeds, the file system
    afterwards is the one before with the PDF at the output path and
    without a file at the path of the HTML file, also when there was one
    before, and the log has two more INFO records. *)
Theorem pdf_written_and_html_removed results a b w data convert bytes :
  let output_path := a +:+ ".pdf" +:+ b in
  let html_path := a +:+ ".html" +:+ html_path_of b in
  contains ".pdf" a = false →
  prepare results = Returned data →
  writable html_path = true →
  writable output_path = true →
  weasyprint = Some convert →
  convert (page data) = Returned bytes →
  gen results output_path "pdf" w
  = (Returned tt,
     {| files := <[output_path := bytes]> (delete html_path (files w));
        log := log w ++ [Log INFO ("HTML report generated: " +:+ html_path) None;
                         Log INFO ("PDF report generated: " +:+ output_path) None] |}).
Proof.
  intros output_path html_path Ha Hp Hwh Hwo Hconv Hbytes.
  assert (html_path_of output_path = html_path) as Hpath
    by exact (replace_first a b Ha).
  assert (html_path ≠ output_path) as Hne.
  { intros Heq. apply (f_equal String.length) in Heq.
    unfold html_path, output_path in Heq.
    rewrite !JsonFacts.length_app in Heq. cbn [String.length] in Heq.
    pose proof (replace_not_shorter b 0) as Hb. unfold Py.replace in Heq. lia. }
  change (gen results output_path "pdf" w) with (pdf results output_path w).
  unfold _generate_pdf. rewrite Hpath.
  rewrite (ReportFacts.html_written _ _ _ _ _ _ _ _ _ _ Hp Hwh).
  unfold convert_pdf, open_w, unlink. rewrite Hconv. cbn [files emit write_file].
  rewrite lookup_insert_eq, Hbytes, Hwo. cbn [files emit write_file].
  rewrite !(lookup_insert_ne _ output_path html_path) by congruence.
  rewrite lookup_insert_eq. unfold remove_file, emit, write_file. cbn [files log].
  f_equal. f_equal.
  - rewrite insert_insert_eq, delete_insert_ne by congruence.
    rewrite insert_insert_eq, delete_insert_eq. reflexivity.
  - rewrite <- !app_assoc. reflexivity.
Qed.

(** X16.  A conversion that fails never makes [generate] raise: without
    the conversion module, with a conversion that raises, or with an
    output path that cannot be opened, [generate] with format [pdf]
    returns normally.  Afterwards the HTML document is at the path of the
    HTML file, every other file is as before, so that none is written at
    the output path, and the log has the record of the HTML file, an
    ERROR record with the cause and an INFO record naming the HTML
    file. *)
Theorem failed_conversion_is_logged_not_raised results output_path w data :
  let html_path := html_path_of output_path in
  prepare results = Returned data →
  writable html_path = true →
  (weasyprint = None
   ∨ (∃ convert e, weasyprint = Some convert ∧ convert (page data) = Raised e)
   ∨ writable output_path = false) →
  ∃ e,
    gen results output_path "pdf" w
    = (Returned tt,
       {| files := <[html_path := page data]> (files w);
          log := log w ++ [Log INFO ("HTML report generated: " +:+ html_path) None;
                           Log ERROR "Error generating PDF" (Some e);
                           Log INFO ("HTML report available at: " +:+ html_path) None] |}).
Proof.
  intros html_path Hp Hwh Hfail.
  change (gen results output_path "pdf" w) with (pdf results output_path w).
  unfold _generate_pdf. fold html_path.
  rewrite (ReportFacts.html_written _ _ _ _ _ _ _ _ _ _ Hp Hwh).
  unfold convert_pdf, open_w. cbn [files emit write_file].
  rewrite lookup_insert_eq.
  assert (∀ e w', (Returned tt,
            emit (Log INFO ("HTML report available at: " +:+ html_path) None)
              (emit (Log ERROR "Error generating PDF" (Some e))
                 (emit (Log INFO ("HTML report generated: " +:+ html_path) None)
                    (write_file html_path (page data) (write_file html_path "" w)))))
          = w' → ∃ e', w' = (Returned tt,
       {| files := <[html_path := page data]> (files w);
          log := log w ++ [Log INFO ("HTML report generated: " +:+ html_path) None;
                           Log ERROR "Error generating PDF" (Some e');
                           Log INFO ("HTML report available at: " +:+ html_path) None] |}))
    as Hend.
  { intros e w' <-. exists e. unfold emit, write_file. cbn [files log].
    rewrite insert_insert_eq, <- !app_assoc. reflexivity. }
  destruct weasyprint as [convert|].
  - destruct (convert (page data)) as [bytes|e] eqn:Hc.
    + destruct Hfail as [Hnone|[(convert' & e & Hsome & Hraised)|Hwo]].
      * discriminate.
      * injection Hsome as <-. congruence.
      * rewrite Hwo. eapply Hend. reflexivity.
    + eapply Hend. reflexivity.
  - eapply Hend. reflexivity.
Qed.

(** X17.  The HTML file of a PDF report is written outside the [try]
    block: when its path cannot be opened, the [OSError] of that path is
    raised from [generate], the conversion is not attempted, and files
    and log are as before. *)
Theorem pdf_html_write_failure_is_raised results output_path w data :
  prepare results = Returned data →
  writable (html_path_of output_path) = false →
  gen results output_path "pdf" w
  = (Raised (OSError (html_path_of output_path)), w).
Proof.
  intros Hp Hwh.
  change (gen results output_path "pdf" w) with (pdf results output_path w).
  unfold _generate_pdf.
  rewrite (ReportFacts.html_refused _ _ _ _ _ _ _ _ _ _ Hp Hwh). reflexivity.
Qed.


(** X19.  Without an entry [vulnerabilities], or with the empty list
    there, the HTML document written is the head of the template, the
    sentence that no vulnerabilities were detected, and the foot; the
    list of the report data is empty. *)
Theorem no_vulnerabilities_message results output_path w :
  dict_lookup "vulnerabilities" results = None
  ∨ dict_lookup "vulnerabilities" results = Some (PyList []) →
  is_dict (dict_get "severity_summary" (PyDict []) results) = true →
  writable output_path = true →
  ∃ data,
    prepare results = Returned data
    ∧ vulnerabilities data = []
    ∧ fst (gen results output_path "html" w) = Returned tt
    ∧ files (snd (gen results output_path "html" w)) !! output_path
      = Some (template_head data +:+ no_vulnerabilities_text +:+ template_foot).
Proof.
  intros Hv Hs Hw.
  assert (dict_get "vulnerabilities" (PyList []) results = PyList []) as Hvs.
  { unfold dict_get. destruct Hv as [-> | ->]; reflexivity. }
  destruct (dict_get "severity_summary" (PyDict []) results) as [| | | | |d] eqn:Hd;
    try discriminate.
  assert (∃ data, prepare results = Returned data ∧ vulnerabilities data = [])
    as (data & Hp & Hnil).
  { unfold prepare_data, _generate_summary. rewrite Hvs, Hd.
    eexists. split; reflexivity. }
  exists data. split; [exact Hp|]. split; [exact Hnil|].
  change (gen results output_path "html" w) with (html results output_path w).
  rewrite (ReportFacts.html_written _ _ _ _ _ _ _ _ _ _ Hp Hw).
  cbn [fst snd files emit write_file]. split; [reflexivity|].
  rewrite lookup_insert_eq. unfold render. rewrite Hnil. reflexivity.
Qed.

(** X20.  The executive summary is determined by the number of entries
    of [vulnerabilities] and the four counts [critical], [high], [medium]
    and [low] of the severity summary, a missing count being 0: two
    result structures that agree on these have the same summary,
    whatever else they hold. *)
Theorem summary_depends_on_count_and_four_counts r1 r2 n d1 d2 :
  len (dict_get "vulnerabilities" (PyList []) r1) = Returned n →
  len (dict_get "vulnerabilities" (PyList []) r2) = Returned n →
  dict_get "severity_summary" (PyDict []) r1 = PyDict d1 →
  dict_get "severity_summary" (PyDict []) r2 = PyDict d2 →
  (∀ name, name ∈ counted_severities →
           dict_get name (PyInt 0) d1 = dict_get name (PyInt 0) d2) →
  ∃ text, _generate_summary str r1 = Returned text
          ∧ _generate_summary str r2 = Returned text.
Proof.
  intros Hn1 Hn2 Hd1 Hd2 Hcounts. unfold _generate_summary.
  rewrite Hn1, Hn2, Hd1, Hd2. cbn [as_dict mbind result_bind Py.bind].
  unfold counted_severities in Hcounts.
  rewrite <- !Hcounts by repeat constructor.
  eexists. split; reflexivity.
Qed.

End Environment.

Import ReportSamples.

Lemma sort_returns_exactly_on_records_witness :
  ∃ m, _sort_vulnerabilities (PyInt 3) = Raised (TypeError m).
Proof.
  apply (proj2 sort_returns_exactly_on_records (PyInt 3)). reflexivity.
Defined.

Lemma sort_is_idempotent_witness :
  ∃ out,
    _sort_vulnerabilities (dict_get "vulnerabilities" (PyList []) sample_results)
    = Returned out
    ∧ _sort_vulnerabilities (PyList out) = Returned out.
Proof.
  eexists. split; [vm_compute; reflexivity|].
  apply (sort_is_idempotent
           [PyDict [("type", PyStr "xss"); ("severity", PyStr "low")];
            PyDict [("type", PyStr "sqli"); ("severity", PyStr "CRITICAL")];
            PyDict [("type", PyStr "banner")];
            PyDict [("type", PyStr "odd"); ("severity", PyStr "unrated")];
            PyDict [("type", PyStr "csrf"); ("severity", PyStr "Low")]]).
  vm_compute. reflexivity.
Defined.



Lemma pdf_kept_witness :
  ∃ bytes,
    files (snd (sample_generate everywhere sample_converter sample_results
                  "report.pdf" "pdf" empty_world)) !! "report.pdf" = Some bytes.
Proof.
  destruct (prepare_readable sample_now sample_str sample_results eq_refl)
    as (data & Hp).
  destruct (pdf_kept_exactly_when_path_names_pdf everywhere sample_now sample_str
              sample_head sample_block sample_foot sample_converter sample_results
              "report.pdf" empty_world data
              (λ html, Returned ("%PDF-1.7 " +:+ html)) _
              Hp eq_refl eq_refl eq_refl eq_refl) as (_ & Hfile & _).
  eexists. exact Hfile.
Defined.

Lemma pdf_written_witness :
  ∃ bytes,
    sample_generate everywhere sample_converter sample_results
      "report.pdf" "pdf" empty_world
    = (Returned tt,
       {| files := <["report.pdf" := bytes]> (delete "report.html" ∅);
          log := [Log INFO "HTML report generated: report.html" None;
                  Log INFO "PDF report generated: report.pdf" None] |}).
Proof.
  destruct (prepare_readable sample_now sample_str sample_results eq_refl)
    as (data & Hp).
  eexists.
  exact (pdf_written_and_html_removed everywhere sample_now sample_str
           sample_head sample_block sample_foot sample_converter sample_results
           "report" "" empty_world data
           (λ html, Returned ("%PDF-1.7 " +:+ html)) _
           eq_refl Hp eq_refl eq_refl eq_refl eq_refl).
Defined.

Lemma failed_conversion_witness :
  ∃ e content,
    sample_generate everywhere broken_converter sample_results
      "report.pdf" "pdf" empty_world
    = (Returned tt,
       {| files := <["report.html" := content]> ∅;
          log := [Log INFO "HTML report generated: report.html" None;
                  Log ERROR "Error generating PDF" (Some e);
                  Log INFO "HTML report available at: report.html" None] |}).
Proof.
  destruct (prepare_readable sample_now sample_str sample_results eq_refl)
    as (data & Hp).
  destruct (failed_conversion_is_logged_not_raised everywhere sample_now sample_str
              sample_head sample_block sample_foot broken_converter sample_results
              "report.pdf" empty_world data Hp eq_refl) as (e & He).
  - right. left. eexists _, _. split; reflexivity.
  - exists e. eexists. exact He.
Defined.

Lemma pdf_html_write_failure_witness :
  sample_generate nowhere sample_converter sample_results
    "report.pdf" "pdf" empty_world
  = (Raised (OSError "report.html"), empty_world).
Proof.
  destruct (prepare_readable sample_now sample_str sample_results eq_refl)
    as (data & Hp).
  exact (pdf_html_write_failure_is_raised nowhere sample_now sample_str
           sample_head sample_block sample_foot sample_converter sample_results
           "report.pdf" empty_world data Hp eq_refl).
Defined.


Lemma no_vulnerabilities_witness :
  ∃ data,
    files (snd (sample_generate everywhere sample_converter
                  [("target", PyStr "http://target.example")]
                  "report.html" "html" empty_world)) !! "report.html"
    = Some (sample_head data +:+ no_vulnerabilities_text +:+ sample_foot).
Proof.
  destruct (no_vulnerabilities_message everywhere sample_now sample_str sample_head
              sample_block sample_foot sample_converter
              [("target", PyStr "http://target.example")]
              "report.html" empty_world)
    as (data & _ & _ & _ & Hfile).
  - left. reflexivity.
  - reflexivity.
  - reflexivity.
  - exists data. exact Hfile.
Defined.

Lemma summary_witness :
  ∃ text,
    _generate_summary sample_str [] = Returned text
    ∧ _generate_summary sample_str
        [("severity_summary", PyDict [("critical", PyInt 0); ("info", PyInt 9)]);
         ("vulnerabilities", PyStr "")]
      = Returned text.
Proof.
  apply (summary_depends_on_count_and_four_counts sample_str _ _ 0 []
           [("critical", PyInt 0); ("info", PyInt 9)]); try reflexivity.
  intros name Hname. unfold counted_severities in Hname.
  rewrite !elem_of_cons, elem_of_nil in Hname.
  destruct Hname as [->|[->|[->|[->|[]]]]]; reflexivity.
Defined.

End ReportExtra.
